(** * Starmap: the children / due-date parser ([src/lib/parser.ts])

  A shallow embedding of the multi-strategy extraction engine of
  [src/lib/parser.ts] and the properties its specification states.

  Strings are sequences of code units; the model takes the code units
  below 256 (Rocq's [ascii]), on which the string methods of the source
  ([trim], [indexOf], [split], [replace], [startsWith], [includes]) are
  defined below.  The collaborators that live outside [parser.ts]
  ([parseHTML], [getValidUrlFromInput], [paramsFromUrl], [getEtaDate],
  [isValidChildren], [ErrorManager.addError]) are parameters of the
  development. *)

From Stdlib Require Import String Ascii List Bool Arith ZArith Lia.
Import ListNotations.
Open Scope list_scope.
Open Scope string_scope.

(* ================================================================== *)
(** ** String methods used by the parser *)
(* ================================================================== *)

Module JsString.

Definition code (c : ascii) : nat := nat_of_ascii c.

(** [WhiteSpace] and [LineTerminator] code units below 256: TAB, LF, VT,
    FF, CR, SPACE, NBSP.  These are what [String.prototype.trim] strips. *)
Definition isWhiteSpace (c : ascii) : bool :=
  let n := code c in
  ((n =? 9) || (n =? 10) || (n =? 11) || (n =? 12) || (n =? 13)
   || (n =? 32) || (n =? 160))%nat.

(** The character class [[\r\n]]. *)
Definition isCrLf (c : ascii) : bool :=
  let n := code c in ((n =? 13) || (n =? 10))%nat.

(** The character class [\d]. *)
Definition isDigit (c : ascii) : bool :=
  let n := code c in ((48 <=? n) && (n <=? 57))%nat.

Fixpoint trimStart (s : string) : string :=
  match s with
  | EmptyString => EmptyString
  | String c s' => if isWhiteSpace c then trimStart s' else s
  end.

Fixpoint trimEnd (s : string) : string :=
  match s with
  | EmptyString => EmptyString
  | String c s' =>
      match trimEnd s' with
      | EmptyString => if isWhiteSpace c then EmptyString else String c EmptyString
      | t => String c t
      end
  end.

(** [s.trim()] *)
Definition trim (s : string) : string := trimEnd (trimStart s).

(** [s.startsWith(p)] *)
Fixpoint startsWith (p s : string) : bool :=
  match p, s with
  | EmptyString, _ => true
  | String a p', String b s' => Ascii.eqb a b && startsWith p' s'
  | String _ _, EmptyString => false
  end.

(** [s.indexOf(p)]; [None] stands for [-1]. *)
Fixpoint indexOf (p s : string) : option nat :=
  if startsWith p s then Some 0
  else match s with
       | EmptyString => None
       | String _ s' => option_map S (indexOf p s')
       end.

(** [s.includes(p)] *)
Definition includes (p s : string) : bool :=
  match indexOf p s with Some _ => true | None => false end.

(** [s.substring(n)] *)
Fixpoint substringFrom (n : nat) (s : string) : string :=
  match n, s with
  | O, _ => s
  | S n', String _ s' => substringFrom n' s'
  | S _, EmptyString => EmptyString
  end.

(** [s.substring(0, n)] *)
Fixpoint substringTo (n : nat) (s : string) : string :=
  match n, s with
  | O, _ => EmptyString
  | S n', String c s' => String c (substringTo n' s')
  | S _, EmptyString => EmptyString
  end.

(** Prepends [c] to the piece under construction (the head of the list). *)
Definition consHead (c : ascii) (pieces : list string) : list string :=
  match pieces with
  | p :: ps => String c p :: ps
  | [] => [String c EmptyString]
  end.

(** [s.split(sep)] for a non-empty string separator [sep]: the scan goes
    left to right, cuts at each occurrence of [sep] and resumes after it.
    [skip] counts the code units of a separator still to be passed. *)
Fixpoint splitFrom (sep : string) (skip : nat) (s : string) : list string :=
  match s with
  | EmptyString => [EmptyString]
  | String c s' =>
      match skip with
      | S k => splitFrom sep k s'
      | O =>
          if startsWith sep s
          then EmptyString :: splitFrom sep (String.length sep - 1) s'
          else consHead c (splitFrom sep 0 s')
      end
  end.

Definition split (sep s : string) : list string := splitFrom sep 0 s.

(** [s.split(/[\r\n]+/)]: the pieces between the maximal runs of CR and LF
    code units.  [inRun] says that the previous code unit was part of a
    run. *)
Fixpoint splitLinesFrom (inRun : bool) (s : string) : list string :=
  match s with
  | EmptyString => [EmptyString]
  | String c s' =>
      if isCrLf c
      then if inRun then splitLinesFrom true s'
           else EmptyString :: splitLinesFrom true s'
      else consHead c (splitLinesFrom false s')
  end.

Definition splitLines (s : string) : list string := splitLinesFrom false s.

(** [s.replace(p, r)] with a string pattern: only the first occurrence
    is replaced. *)
Definition replace (p r s : string) : string :=
  match indexOf p s with
  | None => s
  | Some i => substringTo i s ++ r ++ substringFrom (i + String.length p) s
  end.

(** [a.slice(-1)[0]] on an array of strings; [None] is [undefined]. *)
Fixpoint lastItem (a : list string) : option string :=
  match a with
  | [] => None
  | [x] => Some x
  | _ :: a' => lastItem a'
  end.

(** [/^#\d+$/.test(s)] *)
Fixpoint allDigits (s : string) : bool :=
  match s with
  | EmptyString => true
  | String c s' => isDigit c && allDigits s'
  end.

Definition testHashDigits (s : string) : bool :=
  match s with
  | String c ds =>
      Ascii.eqb c "#" && negb (String.eqb ds EmptyString) && allDigits ds
  | EmptyString => false
  end.

(** [Boolean(s)] on a string. *)
Definition truthy (s : string) : bool := negb (String.eqb s EmptyString).

End JsString.
Import JsString.

(* ================================================================== *)
(** ** Exceptions and the state-passing monad *)
(* ================================================================== *)

(** [new Error(message)]. *)
Inductive Exn : Type :=
| Error (message : string).

(** The three failures of the extraction engine, by the names the
    specification gives them. *)
Definition SectionMissingOrEmpty : Exn := Error "Section missing or has no children".
Definition GuardViolation : Exn := Error "HTML tags found in body_text".
Definition InvalidChildReference : Exn := Error "Invalid host for children item".

(** What a call does: it returns a value or throws. *)
Inductive Outcome (A : Type) : Type :=
| Return (a : A)
| Throw (e : Exn).
Arguments Return {A} a.
Arguments Throw {A} e.

(** A computation over a mutable state [S] that may throw; the state
    survives a throw, as it does in the source language. *)
Definition M (S A : Type) : Type := S -> Outcome A * S.

Definition ret {S A} (a : A) : M S A := fun st => (Return a, st).

Definition throw {S A} (e : Exn) : M S A := fun st => (Throw e, st).

Definition bind {S A B} (m : M S A) (k : A -> M S B) : M S B :=
  fun st =>
    match m st with
    | (Return a, st') => k a st'
    | (Throw e, st') => (Throw e, st')
    end.

(** A call of a function that reads no state. *)
Definition call {S A} (o : Outcome A) : M S A := fun st => (o, st).

(** [try { body } catch (e) { handler }] *)
Definition tryCatch {S A} (body : M S A) (handler : Exn -> M S A) : M S A :=
  fun st =>
    match body st with
    | (Return a, st') => (Return a, st')
    | (Throw e, st') => handler e st'
    end.

(** [try { return body } catch (e) { }] followed by [rest]. *)
Definition tryReturn {S A} (body rest : M S A) : M S A :=
  tryCatch body (fun _ => rest).

Declare Scope monad_scope.
Delimit Scope monad_scope with monad.
Notation "x <- m ;; k" := (bind m (fun x => k))
  (at level 61, m at next level, right associativity) : monad_scope.
Notation "m ;;; k" := (bind m (fun _ => k))
  (at level 61, right associativity) : monad_scope.
Open Scope monad_scope.

(** How the body of a [for ... of] loop ends an iteration. *)
Inductive LoopControl : Type := Continue | Break.

(** [for (const x of xs) { body }] *)
Fixpoint forOf {S A} (xs : list A) (body : A -> M S LoopControl) : M S unit :=
  match xs with
  | [] => ret tt
  | x :: xs' =>
      c <- body x ;;
      match c with
      | Continue => forOf xs' body
      | Break => ret tt
      end
  end.

(** *** The arrays the parser mutates

    [getValidChildrenLinks] fills an array with [push]; the store holds
    the arrays allocated so far, an array's reference being its index. *)
Definition Ref : Type := nat.
Definition Store : Type := list (list string).

Fixpoint updateAt (r : Ref) (f : list string -> list string) (st : Store) : Store :=
  match st, r with
  | [], _ => []
  | a :: st', O => f a :: st'
  | a :: st', S r' => a :: updateAt r' f st'
  end.

(** [const a = []] *)
Definition newArray : M Store Ref :=
  fun st => (Return (List.length st), (st ++ [[]])%list).

(** [a.push(v)] *)
Definition push (r : Ref) (v : string) : M Store unit :=
  fun st => (Return tt, updateAt r (fun a => (a ++ [v])%list) st).

(** The elements of [a] at the time of the read. *)
Definition elementsOf (r : Ref) : M Store (list string) :=
  fun st => (Return (nth r st []), st).

(* ================================================================== *)
(** ** Data model *)
(* ================================================================== *)

(** The fields of [GithubIssueData] the parser reads.  [html_url] is
    tested against [null] and [root_issue] against [true] by [getDueDate],
    so both are nullable here ([None] is [null] or [undefined]). *)
Record Issue : Type := {
  body : string;
  body_html : string;
  html_url : option string;
  title : string;
  root_issue : option bool
}.

(** [ParserGetChildrenResponse]; the legacy strategy may leave [group]
    undefined ([None]). *)
Module Child.
Record t : Type := mk { group : option string; html_url : string }.
End Child.

(** [v != null] *)
Definition notNull {A} (v : option A) : bool :=
  match v with Some _ => true | None => false end.

(** [v === true] *)
Definition isTrue (v : option bool) : bool :=
  match v with Some true => true | _ => false end.

(** What [getValidUrlFromInput] returns: the members of [URL] read here. *)
Record URL : Type := { host : string; href : string }.

(** What [paramsFromUrl] returns. *)
Record UrlParams : Type := { owner : string; repo : string }.

(** The argument of [ErrorManager.addError]. *)
Record ErrorEntry : Type := {
  issue : Issue;
  userGuideSection : string;
  errorTitle : string;
  errorMessage : string
}.

(** The object [getDueDate] returns. *)
Record DueDate : Type := { eta : string }.

(* ================================================================== *)
(** ** The document tree *)
(* ================================================================== *)

#[warnings="-register-all"]
Inductive Node : Type :=
| TextNode (data : string)
| ElementNode (localName : string) (attributes : list (string * string))
    (childNodes : list Node).

(** An element as a query returns it: the element and the sibling
    element before it, if any. *)
Record Located : Type := {
  element : Node;
  previousElementSibling : option Node
}.

(** [node.textContent] *)
Fixpoint textContent (n : Node) : string :=
  match n with
  | TextNode d => d
  | ElementNode _ _ cs =>
      (fix all (cs : list Node) : string :=
         match cs with
         | [] => EmptyString
         | c :: cs' => textContent c ++ all cs'
         end) cs
  end.

Definition isElement (n : Node) : bool :=
  match n with ElementNode _ _ _ => true | TextNode _ => false end.

Definition childNodesOf (n : Node) : list Node :=
  match n with ElementNode _ _ cs => cs | TextNode _ => [] end.

(** The element to remember as "previous sibling" after passing [n]. *)
Definition afterNode (prev : option Node) (n : Node) : option Node :=
  if isElement n then Some n else prev.

(** The elements of a subtree in document order, each with its previous
    element sibling. *)
Fixpoint subtreeElements (prev : option Node) (n : Node) : list Located :=
  match n with
  | TextNode _ => []
  | ElementNode _ _ cs =>
      {| element := n; previousElementSibling := prev |}
      :: (fix siblings (prev : option Node) (cs : list Node) : list Located :=
            match cs with
            | [] => []
            | c :: cs' =>
                (subtreeElements prev c ++ siblings (afterNode prev c) cs')%list
            end) None cs
  end.

Fixpoint forestElements (prev : option Node) (ns : list Node) : list Located :=
  match ns with
  | [] => []
  | n :: ns' =>
      (subtreeElements prev n ++ forestElements (afterNode prev n) ns')%list
  end.

(** The selectors the parser uses: a type selector or [*], followed by
    attribute selectors [[name]] and [[name*="value"]]. *)
Inductive AttrSelector : Type :=
| HasAttribute (name : string)
| AttributeContains (name value : string).

Record Selector : Type := {
  typeSelector : option string;
  attrSelectors : list AttrSelector
}.

Fixpoint getAttribute (name : string) (attrs : list (string * string)) : option string :=
  match attrs with
  | [] => None
  | (n, v) :: attrs' => if String.eqb n name then Some v else getAttribute name attrs'
  end.

Definition matchesAttr (attrs : list (string * string)) (a : AttrSelector) : bool :=
  match a with
  | HasAttribute name =>
      match getAttribute name attrs with Some _ => true | None => false end
  | AttributeContains name value =>
      match getAttribute name attrs with
      | Some v => truthy value && includes value v
      | None => false
      end
  end.

Definition matches (sel : Selector) (n : Node) : bool :=
  match n with
  | TextNode _ => false
  | ElementNode tag attrs _ =>
      match typeSelector sel with
      | None => true
      | Some t => String.eqb t tag
      end
      && forallb (matchesAttr attrs) (attrSelectors sel)
  end.

(** [root.querySelectorAll(sel)] for a document or an element, given the
    child nodes of the root: its descendants that match, in document order. *)
Definition querySelectorAll (sel : Selector) (roots : list Node) : list Located :=
  filter (fun l => matches sel (element l)) (forestElements None roots).

(** ['*'] *)
Definition anyElement : Selector :=
  {| typeSelector := None; attrSelectors := [] |}.

(** ['ul'] *)
Definition ulElement : Selector :=
  {| typeSelector := Some "ul"; attrSelectors := [] |}.

(** ['a[href][data-hovercard-type*="issue"]'] *)
Definition issueAnchor : Selector :=
  {| typeSelector := Some "a";
     attrSelectors := [HasAttribute "href";
                       AttributeContains "data-hovercard-type" "issue"] |}.

(** [strings.join(sep)] *)
Fixpoint join (sep : string) (l : list string) : string :=
  match l with
  | [] => EmptyString
  | [x] => x
  | x :: l' => x ++ sep ++ join sep l'
  end.

Definition LF : string := String "010" EmptyString.
Definition CRLF : string := String "013" (String "010" EmptyString).

(* ================================================================== *)
(** ** Vocabulary of the specification *)
(* ================================================================== *)

(** [p] occurs in [s] as a substring. *)
Definition Occurs (p s : string) : Prop :=
  exists pre post, s = pre ++ p ++ post.

(** [s] is [pre], then the first occurrence of [p], then [post]. *)
Definition FirstOccurrence (p s pre post : string) : Prop :=
  s = pre ++ p ++ post /\
  forall pre' post', s = pre' ++ p ++ post' ->
                     String.length pre <= String.length pre'.

(** Every code unit of [s] satisfies [f]. *)
Fixpoint allChars (f : ascii -> bool) (s : string) : bool :=
  match s with
  | EmptyString => true
  | String c s' => f c && allChars f s'
  end.

Definition notCrLf (c : ascii) : bool := negb (isCrLf c).

(** [s] is empty or begins with a code unit that does not satisfy [f]. *)
Definition stopsAt (f : ascii -> bool) (s : string) : bool :=
  match s with
  | EmptyString => true
  | String c _ => negb (f c)
  end.

(** [s] does not begin with a CR or LF code unit. *)
Definition startsLine (s : string) : bool :=
  match s with
  | EmptyString => true
  | String c _ => notCrLf c
  end.

(** [s] split on runs of CR and LF code units: each piece is free of
    them, and consecutive pieces are separated by one maximal run. *)
Inductive SplitOnRuns : string -> list string -> Prop :=
| SplitOnRuns_last (s : string) :
    allChars notCrLf s = true ->
    SplitOnRuns s [s]
| SplitOnRuns_cut (piece run rest : string) (pieces : list string) :
    allChars notCrLf piece = true ->
    run <> EmptyString ->
    allChars isCrLf run = true ->
    startsLine rest = true ->
    SplitOnRuns rest pieces ->
    SplitOnRuns (piece ++ run ++ rest) (piece :: pieces).

(** [s] has no white space at either end. *)
Definition NoOuterWhiteSpace (s : string) : Prop :=
  (forall c r, s = String c r -> isWhiteSpace c = false) /\
  (forall r c, s = r ++ String c EmptyString -> isWhiteSpace c = false).

(** [t] is [s] without the white space at its ends. *)
Definition Trimmed (s t : string) : Prop :=
  exists l r, s = l ++ t ++ r /\
              allChars isWhiteSpace l = true /\
              allChars isWhiteSpace r = true /\
              NoOuterWhiteSpace t.

(** [seg] is what follows the last occurrence of [sep] in [s], or [s]
    itself when [sep] does not occur. *)
Definition LastSegment (sep s seg : string) : Prop :=
  (~ Occurs sep s /\ seg = s) \/
  (exists before, s = before ++ sep ++ seg /\ ~ Occurs sep seg).

(** [out] is [s] with its first occurrence of [p] removed, or [s] itself
    when [p] does not occur. *)
Definition WithoutFirst (p s out : string) : Prop :=
  (~ Occurs p s /\ out = s) \/
  (exists pre post, FirstOccurrence p s pre post /\ out = pre ++ post).

(** The markdown-link unwrap of a line, as the code performs it: trim,
    keep what follows the last ["]("], remove the first [")"] of that. *)
Definition Unwrapped (line out : string) : Prop :=
  exists t seg, Trimmed line t /\ LastSegment "](" t seg /\ WithoutFirst ")" seg out.

(** The unwrap as the specification words it: what follows the last
    ["]("], less one trailing [")"] if present. *)
Definition stripTrailingParen (s : string) : string :=
  match indexOf ")" (substringFrom (String.length s - 1) s) with
  | Some _ => substringTo (String.length s - 1) s
  | None => s
  end.

Definition unwrapAsSpecified (line : string) : string :=
  stripTrailingParen (last (split "](" line) EmptyString).

(** A line of the shape [#N]: a hash mark, then one or more digits, and
    nothing else. *)
Definition HashDigits (line : string) : Prop :=
  exists digits, line = "#" ++ digits /\ digits <> EmptyString /\
                 allChars isDigit digits = true.

(* ================================================================== *)
(** ** Other code of the repository *)
(* ================================================================== *)

(** [0 | x] for an integral [x]: the signed 32-bit integer congruent to
    [x] modulo 2^32. *)
Definition toInt32 (x : Z) : Z :=
  ((x + 2147483648) mod 4294967296 - 2147483648)%Z.

(** [generateHashCode] of the service worker's content hash:
    [[...str].reduce((hash, chr) => 0 | (31 * hash + chr.charCodeAt(0)), 0)].
    [hash] is a 32-bit integer at every step, so [31 * hash + c] stays
    below 2^53 in absolute value and the arithmetic on numbers is exact. *)
Definition generateHashCode (str : string) : Z :=
  fold_left
    (fun hash chr => toInt32 (31 * hash + Z.of_nat (code chr))%Z)
    (list_ascii_of_string str) 0%Z.


(** [urlPath.split('#')[1] ?? ViewMode.Simple] of the roadmap page
    ([src/pages/roadmap/[...slug].tsx], line 234); [simple] stands for
    the constant [ViewMode.Simple], declared in [lib/enums]. *)
Definition hashString (simple urlPath : string) : string :=
  match nth_error (split "#" urlPath) 1 with
  | Some mode => mode
  | None => simple
  end.

(* ================================================================== *)
(** ** Stand-ins for the collaborators

    Small executable versions of the imported functions, enough to run
    the parser on the inputs of [src/tests/unit/parser.test.ts]; they are
    used for the concrete runs at the end of the development only. *)
(* ================================================================== *)

Module TestDouble.

(** Owner and repository of [https://github.com/<owner>/<repo>/...]. *)
Definition paramsFromUrl (url : option string) : Outcome UrlParams :=
  match url with
  | None => Throw (Error "Invalid URL")
  | Some u =>
      match split "/" u with
      | _ :: _ :: _ :: o :: r :: _ => Return {| owner := o; repo := r |}
      | _ => Throw (Error "Invalid URL")
      end
  end.

(** Accepts an absolute [https://] URL as it is, and a short reference
    [owner/repo#N], which it expands to the issue's URL on github.com. *)
Definition getValidUrlFromInput (input : string) : Outcome URL :=
  if startsWith "https://" input
  then Return {| host := nth 2 (split "/" input) EmptyString; href := input |}
  else match split "#" input with
       | [slug; number] =>
           if includes "/" slug && truthy number && allDigits number
           then Return {| host := "github.com";
                          href := "https://github.com/" ++ slug ++ "/issues/" ++ number |}
           else Throw (Error "Invalid URL")
       | _ => Throw (Error "Invalid URL")
       end.

(** The token after the first ["eta: "]. *)
Definition getEtaDate (text : string) : Outcome string :=
  match indexOf "eta: " text with
  | Some i =>
      match splitLines (substringFrom (i + 5) text) with
      | t :: _ => Return (trim t)
      | [] => Throw (Error "No ETA found")
      end
  | None => Throw (Error "No ETA found")
  end.

Definition isValidChildren (heading : option string) : bool :=
  match heading with
  | Some h => String.eqb h "children:" || String.eqb h "children"
  | None => false
  end.

(** The [href] attribute, unchanged. *)
Definition anchorHref (n : Node) : string :=
  match n with
  | ElementNode _ attrs _ =>
      match getAttribute "href" attrs with Some v => v | None => EmptyString end
  | TextNode _ => EmptyString
  end.

(** A collector that keeps the entries in the order they were added. *)
Definition addError (e : ErrorEntry) (log : list ErrorEntry) : list ErrorEntry :=
  (log ++ [e])%list.

(** A rendered body and its tree: a heading paragraph, a list of two
    issue anchors (the second one outside github.com) and an ETA line. *)
Definition issueLink (url label : string) : Node :=
  ElementNode "li" []
    [ElementNode "a"
       [("class", "issue-link js-issue-link"); ("data-hovercard-type", "issue");
        ("href", url)]
       [TextNode label]].

Definition legacyHtml : string :=
  "<p>children:</p><ul><li><a class='issue-link js-issue-link' data-hovercard-type='issue' href='https://github.com/protocol/bedrock/issues/5'>protocol/bedrock#5</a></li><li><a class='issue-link js-issue-link' data-hovercard-type='issue' href='https://example.org/tracker/11'>tracker#11</a></li></ul><p>eta: 2023Q2</p>".

Definition legacyTree : list Node :=
  [ElementNode "p" [] [TextNode "children:"];
   ElementNode "ul" []
     [issueLink "https://github.com/protocol/bedrock/issues/5" "protocol/bedrock#5";
      issueLink "https://example.org/tracker/11" "tracker#11"];
   ElementNode "p" [] [TextNode "eta: 2023Q2"]].

Definition parseHTML (html : string) : list Node :=
  if String.eqb html legacyHtml then legacyTree else [].

End TestDouble.

(* ================================================================== *)
(** ** Sample issues

    The bodies of [src/tests/unit/parser.test.ts] and of the
    specification's examples, and a few more of the same kind. *)
(* ================================================================== *)

Module Sample.

Definition issueOf (text markup : string) (url : option string) : Issue :=
  {| body := text; body_html := markup; html_url := url;
     title := EmptyString; root_issue := None |}.

(** [example_tasklist_body]: a "children:" list, then a task list. *)
Definition tasklistBody : string :=
  "eta: 2023Q4" ++ CRLF ++ CRLF
  ++ "children:" ++ CRLF
  ++ "- [ ] #121" ++ CRLF ++ "- [ ] #122" ++ CRLF
  ++ "- [ ] #123" ++ CRLF ++ "- [ ] #124" ++ CRLF ++ CRLF
  ++ "```[tasklist]" ++ CRLF ++ "### Tasks" ++ CRLF
  ++ "- [ ] #121" ++ CRLF ++ "- [ ] #122" ++ CRLF
  ++ "- [ ] #123" ++ CRLF ++ "- [ ] #124" ++ CRLF
  ++ "```" ++ CRLF.

Definition tasklistIssue : Issue :=
  issueOf tasklistBody EmptyString
    (Some "https://github.com/ipfs/ipfs-gui/issues/106").

(** A task list followed by a separate "children:" list. *)
Definition trailingChildrenBody : string :=
  "```[tasklist]" ++ LF ++ "- [ ] #1" ++ LF ++ "```" ++ LF ++ LF
  ++ "children:" ++ LF ++ "- #2".

Definition trailingChildrenIssue : Issue :=
  issueOf trailingChildrenBody EmptyString
    (Some "https://github.com/o/r/issues/9").

(** "Can parse children from issue.body with extraneous link". *)
Definition extraneousLinkIssue : Issue :=
  issueOf
    ("eta: 2023Q4" ++ CRLF ++ CRLF ++ "children:" ++ CRLF
     ++ "- https://github.com/filecoin-station/roadmap/issues/5" ++ CRLF
     ++ "- https://github.com/filecoin-station/roadmap/issues/7" ++ CRLF
     ++ "- https://github.com/filecoin-station/roadmap/issues/3" ++ CRLF
     ++ "- #10 " ++ CRLF ++ "- #11" ++ CRLF ++ CRLF
     ++ "View the roadmap here: https://starmap.site/roadmap/github.com/filecoin-station/roadmap/issues/1"
     ++ CRLF)
    EmptyString
    (Some "https://github.com/filecoin-station/roadmap/issues/1").

(** "Can parse children from issue.body with extraneous markdown link". *)
Definition markdownLinkIssue : Issue :=
  issueOf
    ("children:" ++ CRLF
     ++ " - https://github.com/filecoin-project/rust-fil-proofs/issues/1644"
     ++ CRLF ++ CRLF
     ++ "[Rendered StarMaps view](https://www.starmaps.app/roadmap/github.com/filecoin-project/rust-fil-proofs/issues/1640#detail).")
    EmptyString
    (Some "https://github.com/filecoin-project/rust-fil-proofs/issues/1640").

(** The example of section 8 of the specification. *)
Definition seeAlsoIssue : Issue :=
  issueOf
    ("children:" ++ LF
     ++ "- https://github.com/o/r/issues/5" ++ LF
     ++ "- https://github.com/o/r/issues/7" ++ LF
     ++ "- #10" ++ LF ++ "- #11" ++ LF ++ LF
     ++ "See also: https://unrelated.example/x")
    EmptyString
    (Some "https://github.com/o/r/issues/1").

(** Candidate lines with a resolvable line behind a failing one. *)
Definition mixedLines : list string :=
  ["https://github.com/o/r/issues/5"; "#10";
   "https://unrelated.example/x"; "#11"].

(** Rendered markup supplied where the plain text is expected. *)
Definition renderedBodyIssue : Issue :=
  issueOf
    ("<p>children:</p>" ++ LF ++ "<ul>" ++ LF
     ++ "<li>https://github.com/protocol/bedrock/issues/5</li>" ++ LF
     ++ "</ul>")
    TestDouble.legacyHtml
    (Some "https://github.com/protocol/engres/issues/5").

(** A "children:" list whose first line is no reference. *)
Definition undecidedIssue : Issue :=
  issueOf
    ("children:" ++ LF ++ "- to be decided" ++ LF ++ "- #5")
    TestDouble.legacyHtml
    (Some "https://github.com/o/r/issues/1").

(** A rendered body in the manner of [example_body_html], with a second
    anchor outside github.com, and no text conventions in [body]. *)
Definition legacyIssue : Issue :=
  issueOf EmptyString TestDouble.legacyHtml (Some EmptyString).

(** An issue without body whose [html_url] is the empty string. *)
Definition emptyUrlIssue : Issue :=
  {| body := EmptyString; body_html := EmptyString;
     html_url := Some EmptyString; title := "Roadmap";
     root_issue := Some false |}.

(** A section whose lines hold a markdown link followed by a full stop,
    a parenthesis outside a link, and surrounding blanks. *)
Definition notesText : string :=
  "notes:" ++ LF ++ "[docs](https://example.org/a)." ++ LF
  ++ "see b) and c" ++ LF ++ "  #7  ".

(** A body whose "children:" header carries text on its own line. *)
Definition headerLineText : string :=
  "children: #1" ++ LF ++ "- #2".

(** Rendered markup with a qualifying list nested in another one, and its
    tree. *)
Definition nestedHtml : string :=
  "<p>children:</p><ul><li><p>children</p><ul><li><a data-hovercard-type='issue' href='https://github.com/o/r/issues/3'>o/r#3</a></li></ul></li></ul>".

Definition nestedAnchor : Node :=
  ElementNode "a"
    [("data-hovercard-type", "issue");
     ("href", "https://github.com/o/r/issues/3")]
    [TextNode "o/r#3"].

Definition nestedInnerList : Node :=
  ElementNode "ul" [] [ElementNode "li" [] [nestedAnchor]].

Definition nestedInnerHeading : Node :=
  ElementNode "p" [] [TextNode "children"].

Definition nestedOuterList : Node :=
  ElementNode "ul" []
    [ElementNode "li" [] [nestedInnerHeading; nestedInnerList]].

Definition nestedOuterHeading : Node :=
  ElementNode "p" [] [TextNode "children:"].

Definition nestedTree : list Node := [nestedOuterHeading; nestedOuterList].

Definition parseNested (html : string) : list Node :=
  if String.eqb html nestedHtml then nestedTree else TestDouble.parseHTML html.

Definition nestedIssue : Issue :=
  issueOf EmptyString nestedHtml (Some EmptyString).

End Sample.

(* ================================================================== *)
(** ** [src/lib/parser.ts] *)
(* ================================================================== *)

Section Parser.

(** *** Collaborators (imported by [parser.ts], defined elsewhere) *)

(** [parseHTML] of linkedom, followed by the selection of [document]: the
    child nodes of the document parsed from a markup string. *)
Variable parseHTML : string -> list Node.

(** The [href] property of an anchor element, as the document library
    computes it. *)
Variable anchorHref : Node -> string.

(** [getValidUrlFromInput]: a URL, or a throw on malformed input. *)
Variable getValidUrlFromInput : string -> Outcome URL.

(** [paramsFromUrl]: owner and repository of an issue URL. *)
Variable paramsFromUrl : option string -> Outcome UrlParams.

(** [getEtaDate]: the ETA token of a text, or a throw when there is none. *)
Variable getEtaDate : string -> Outcome string.

(** [isValidChildren], already coerced to a boolean by [!!]. *)
Variable isValidChildren : option string -> bool.

(** [ErrorManager] and its method [addError]. *)
Variable ErrorManager : Type.
Variable addError : ErrorEntry -> ErrorManager -> ErrorManager.

(** *** [getDueDate] (lines 8-30) *)

(** Lines 9-12: the text content of every element of the parsed body,
    in document order, joined by line feeds. *)
Definition issueTextOf (issue : Issue) : string :=
  let issueBodyHtml := body_html issue in
  let document := parseHTML issueBodyHtml in
  join LF (map (fun v => textContent (element v))
             (querySelectorAll anyElement document)).

(** The entry [getDueDate] hands to [addError]. *)
Definition etaNotFound (issue : Issue) : ErrorEntry :=
  {| issue := issue;
     userGuideSection := "#eta";
     errorTitle := "ETA not found";
     errorMessage := "ETA not found in issue body" |}.

Definition getDueDate (issue : Issue) : M ErrorManager DueDate :=
  let issueText := issueTextOf issue in
  eta <- tryCatch
           (eta <- call (getEtaDate issueText) ;; ret (Some eta))
           (fun e =>
              if notNull (html_url issue) && negb (isTrue (root_issue issue))
              then fun errorManager =>
                     (Return None, addError (etaNotFound issue) errorManager)
              else ret None) ;;
  ret {| eta := match eta with Some v => v | None => EmptyString end |}.

(** *** Line helpers (lines 32-44) *)

(** [split] never yields an empty array, so [.slice(-1)[0]] is a string;
    [last] takes it. *)
Definition splitAndGetLastItem (line : string) : string :=
  last (split " " (trim line)) EmptyString.

Definition ensureTaskListChild (line : string) : bool :=
  match indexOf "-" (trim line) with
  | Some 0 => true
  | _ => false
  end.

Definition getUrlFromMarkdownText (line : string) : string :=
  replace ")" "" (last (split "](" (trim line)) EmptyString).

Definition getSectionLines (text sectionHeader : string) : list string :=
  match indexOf sectionHeader text with
  | None => []
  | Some sectionIndex =>
      map getUrlFromMarkdownText
        (tl (splitLines (substringFrom sectionIndex text)))
  end.

(** *** [getUrlStringForChildrenLine] (lines 46-56) *)

Definition getUrlStringForChildrenLine (line : string) (issue : Issue)
  : Outcome string :=
  match
    (if testHashDigits line
     then match paramsFromUrl (html_url issue) with
          | Return p => Return (owner p ++ "/" ++ repo p ++ line)
          | Throw e => Throw e
          end
     else Return line)
  with
  | Throw e => Throw e
  | Return line =>
      match getValidUrlFromInput line with
      | Throw e => Throw e
      | Return url =>
          if negb (includes "github.com" (host url))
          then Throw (Error "Invalid host for children item")
          else Return (href url)
      end
  end.

(** *** [getValidChildrenLinks] and [convertLinesToChildren] (lines 104-124) *)

Definition getValidChildrenLinks (lines : list string) (issue : Issue)
  : M Store (list string) :=
  validChildrenLinks <- newArray ;;
  forOf lines (fun line =>
    tryCatch
      (url <- call (getUrlStringForChildrenLine line issue) ;;
       push validChildrenLinks url ;;;
       ret Continue)
      (fun e => ret Break)) ;;;
  elementsOf validChildrenLinks.

Definition convertLinesToChildren (lines : list string) (issue : Issue)
    (group : string) : M Store (list Child.t) :=
  validChildrenLinks <- getValidChildrenLinks lines issue ;;
  ret (map (fun html_url => Child.mk (Some group) html_url) validChildrenLinks).

(** *** [getChildrenFromTaskList] (lines 63-75) *)

Definition taskListLines (issue : Issue) : list string :=
  filter truthy
    (map splitAndGetLastItem
       (filter ensureTaskListChild
          (getSectionLines (body issue) "```[tasklist]"))).

Definition getChildrenFromTaskList (issue : Issue) : M Store (list Child.t) :=
  let lines := taskListLines issue in
  if Nat.eqb (List.length lines) 0
  then throw (Error "Section missing or has no children")
  else convertLinesToChildren lines issue "tasklist".

(** *** [getChildrenNew] (lines 83-102) *)

Definition childrenLines (issue : Issue) : list string :=
  filter truthy
    (map splitAndGetLastItem (getSectionLines (body issue) "children:")).

Definition getChildrenNew (issue : Issue) : M Store (list Child.t) :=
  tryReturn (getChildrenFromTaskList issue)
    (let lines := childrenLines issue in
     if Nat.eqb (List.length lines) 0
     then throw (Error "Section missing or has no children")
     else if existsb (fun line => startsWith "<" line) lines
     then throw (Error "HTML tags found in body_text")
     else convertLinesToChildren lines issue "children:").

(** *** [getChildren] (lines 126-154) *)

(** An item of the array the [reduce] builds. *)
Record ListItem : Type := { itemGroup : option string; hrefs : list string }.

(** [list.previousElementSibling?.textContent?.trim()] *)
Definition listTitleOf (list : Located) : option string :=
  option_map (fun e => trim (textContent e)) (previousElementSibling list).

Definition filterListByTitle (ulLists : list Located) : list Located :=
  filter (fun list => isValidChildren (listTitleOf list)) ulLists.

(** The part of [getChildren] after the [try]: the legacy strategy over
    the rendered markup.  The first [.flat()] meets no nested array and
    copies its input; the second one is [concat]. *)
Definition getChildrenLegacy (issue : Issue) : list Child.t :=
  let document := parseHTML (body_html issue) in
  let ulLists := querySelectorAll ulElement document in
  let children :=
    concat
      (map (fun item =>
              map (fun href => Child.mk (itemGroup item) href) (hrefs item))
         (fold_left
            (fun a b =>
               let listTitle := listTitleOf b in
               let hrefSelector :=
                 querySelectorAll issueAnchor (childNodesOf (element b)) in
               let listHrefs :=
                 map (fun v => anchorHref (element v)) hrefSelector in
               (a ++ [{| itemGroup := listTitle; hrefs := listHrefs |}])%list)
            (filterListByTitle ulLists) [])) in
  children.

Definition getChildren (issue : Issue) : M Store (list Child.t) :=
  tryReturn (getChildrenNew issue) (ret (getChildrenLegacy issue)).

(** *** Vocabulary of the specification about resolution *)

(** The lines of [lines] up to the first one that fails to resolve, each
    replaced by its URL: the "take-while" of the specification. *)
Fixpoint resolvedPrefix (issue : Issue) (lines : list string) : list string :=
  match lines with
  | [] => []
  | line :: rest =>
      match getUrlStringForChildrenLine line issue with
      | Return url => url :: resolvedPrefix issue rest
      | Throw _ => []
      end
  end.

(** [line] is handed to validation as [line']: expanded against the
    issue's owner and repository when it has the shape [#N], unchanged
    otherwise. *)
Definition ExpandsTo (line : string) (issue : Issue) (line' : string) : Prop :=
  (HashDigits line /\
   exists p, paramsFromUrl (html_url issue) = Return p /\
             line' = owner p ++ "/" ++ repo p ++ line) \/
  (~ HashDigits line /\ line' = line).

(** [line] resolves to [url]: it validates, after expansion, to a URL
    whose host contains ["github.com"], and [url] is that URL's [href]. *)
Definition ResolvesTo (line : string) (issue : Issue) (url : string) : Prop :=
  exists line' u,
    ExpandsTo line issue line' /\
    getValidUrlFromInput line' = Return u /\
    includes "github.com" (host u) = true /\
    url = href u.

(** [line] fails to resolve. *)
Definition FailsToResolve (line : string) (issue : Issue) : Prop :=
  forall url, ~ ResolvesTo line issue url.

(** The validation step of the resolver: the external validator, then
    the test of the host. *)
Definition validated (line : string) : Outcome string :=
  match getValidUrlFromInput line with
  | Throw e => Throw e
  | Return url =>
      if includes "github.com" (host url)
      then Return (href url)
      else Throw InvalidChildReference
  end.

(** An anchor selected by ['a[href][data-hovercard-type*="issue"]']. *)
Definition IssueAnchor (n : Node) : Prop :=
  exists attrs children target kind,
    n = ElementNode "a" attrs children /\
    getAttribute "href" attrs = Some target /\
    getAttribute "data-hovercard-type" attrs = Some kind /\
    Occurs "issue" kind.

(** The lists the legacy strategy retains, in document order. *)
Definition qualifiedLists (issue : Issue) : list Located :=
  filter (fun ul => isValidChildren (listTitleOf ul))
    (querySelectorAll ulElement (parseHTML (body_html issue))).

(** The issue anchors inside a list, in document order. *)
Definition issueAnchorsOf (ul : Located) : list Located :=
  querySelectorAll issueAnchor (childNodesOf (element ul)).

(** The fallback chain as the specification describes it: the first
    strategy that applies decides the result, and the results are not
    merged. *)
Definition extractChildren (issue : Issue) : list Child.t :=
  match taskListLines issue with
  | _ :: _ =>
      map (Child.mk (Some "tasklist")) (resolvedPrefix issue (taskListLines issue))
  | [] =>
      match childrenLines issue with
      | [] => getChildrenLegacy issue
      | _ :: _ =>
          if existsb (fun line => startsWith "<" line) (childrenLines issue)
          then getChildrenLegacy issue
          else map (Child.mk (Some "children:"))
                 (resolvedPrefix issue (childrenLines issue))
      end
  end.

(** [issue] with another [body]. *)
Definition withBody (issue : Issue) (text : string) : Issue :=
  {| body := text;
     body_html := body_html issue;
     html_url := html_url issue;
     title := title issue;
     root_issue := root_issue issue |}.

(* ================================================================== *)
(** ** Properties of the string methods *)
(* ================================================================== *)

Lemma append_empty_r (s : string) : s ++ EmptyString = s.
Proof. induction s as [|c s IH]; simpl; [reflexivity | now rewrite IH]. Qed.

Lemma append_assoc' (a b c : string) : (a ++ b) ++ c = a ++ b ++ c.
Proof. induction a as [|x a IH]; simpl; [reflexivity | now rewrite IH]. Qed.

Lemma length_append' (a b : string) :
  String.length (a ++ b) = String.length a + String.length b.
Proof. induction a as [|x a IH]; simpl; [reflexivity | now rewrite IH]. Qed.

Lemma append_inv_head (a b c : string) : a ++ b = a ++ c -> b = c.
Proof.
  induction a as [|x a IH]; simpl; intros H; [exact H|].
  injection H as H. now apply IH.
Qed.

(** Two decompositions of one string with left parts of equal length
    coincide. *)
Lemma append_eq_length (a b c d : string) :
  a ++ b = c ++ d -> String.length a = String.length c -> a = c /\ b = d.
Proof.
  revert c; induction a as [|x a IH]; intros [|y c]; simpl; intros H L;
    try discriminate.
  - now split.
  - injection H as -> H. injection L as L.
    destruct (IH _ H L) as [-> ->]. now split.
Qed.

Lemma startsWith_iff (p s : string) :
  startsWith p s = true <-> exists r, s = p ++ r.
Proof.
  revert s; induction p as [|a p IH]; intros s; simpl.
  - split; [intros _; now exists s | reflexivity].
  - destruct s as [|b s].
    + split; [discriminate | intros [r H]; discriminate].
    + rewrite andb_true_iff, Ascii.eqb_eq, IH. split.
      * intros [-> [r ->]]. now exists r.
      * intros [r H]. injection H as -> ->. split; [reflexivity | now exists r].
Qed.

Lemma substringFrom_append (pre rest : string) :
  substringFrom (String.length pre) (pre ++ rest) = rest.
Proof. induction pre as [|c pre IH]; simpl; [now destruct rest | exact IH]. Qed.

Lemma substringTo_append (pre rest : string) :
  substringTo (String.length pre) (pre ++ rest) = pre.
Proof. induction pre as [|c pre IH]; simpl; [now destruct rest | now rewrite IH]. Qed.

(** [indexOf] finds an occurrence, and it is the first one. *)
Lemma indexOf_Some (p s : string) (i : nat) :
  indexOf p s = Some i ->
  exists pre post, FirstOccurrence p s pre post /\ String.length pre = i.
Proof.
  revert i; induction s as [|c s IH]; intros i; simpl.
  - destruct (startsWith p EmptyString) eqn:E; [|discriminate].
    intros [= <-]. apply startsWith_iff in E as [r E].
    exists EmptyString, r. repeat split; [exact E | simpl; lia].
  - destruct (startsWith p (String c s)) eqn:E.
    + intros [= <-]. apply startsWith_iff in E as [r E].
      exists EmptyString, r. repeat split; [exact E | simpl; lia].
    + destruct (indexOf p s) as [j|] eqn:Ej; [|discriminate].
      simpl. intros [= <-].
      destruct (IH j eq_refl) as (pre & post & [Hs Hmin] & Hl).
      exists (String c pre), post. repeat split.
      * simpl. now rewrite Hs.
      * intros [|c' pre'] post' H; simpl in H.
        -- exfalso. assert (startsWith p (String c s) = true) as H'
             by (apply startsWith_iff; now exists post').
           congruence.
        -- injection H as _ H. simpl. apply le_n_S. now apply Hmin with post'.
      * simpl. now rewrite Hl.
Qed.

Lemma indexOf_None (p s : string) : indexOf p s = None -> ~ Occurs p s.
Proof.
  induction s as [|c s IH]; simpl.
  - destruct (startsWith p EmptyString) eqn:E; [discriminate|].
    intros _ (pre & post & H). destruct pre; [|discriminate].
    simpl in H. assert (startsWith p EmptyString = true) as H'
      by (apply startsWith_iff; now exists post). congruence.
  - destruct (startsWith p (String c s)) eqn:E; [discriminate|].
    destruct (indexOf p s) eqn:Ei; [discriminate|].
    intros _ (pre & post & H). destruct pre as [|c' pre]; simpl in H.
    + assert (startsWith p (String c s) = true) as H'
        by (apply startsWith_iff; now exists post). congruence.
    + injection H as _ H. apply IH; [reflexivity | now exists pre, post].
Qed.

Lemma indexOf_first (p s pre post : string) :
  FirstOccurrence p s pre post -> indexOf p s = Some (String.length pre).
Proof.
  intros [Hs Hmin]. destruct (indexOf p s) as [i|] eqn:E.
  - destruct (indexOf_Some _ _ _ E) as (pre0 & post0 & [Hs0 Hmin0] & Hl).
    f_equal. specialize (Hmin _ _ Hs0). specialize (Hmin0 _ _ Hs). lia.
  - exfalso. apply (indexOf_None _ _ E). now exists pre, post.
Qed.

Lemma includes_true_iff (p s : string) : includes p s = true <-> Occurs p s.
Proof.
  unfold includes. destruct (indexOf p s) eqn:E; split; try reflexivity.
  - intros _. destruct (indexOf_Some _ _ _ E) as (pre & post & [H _] & _).
    now exists pre, post.
  - discriminate.
  - intros H. now apply indexOf_None in E.
Qed.

Lemma includes_false_iff (p s : string) : includes p s = false <-> ~ Occurs p s.
Proof.
  rewrite <- includes_true_iff. destruct (includes p s); split; intros H;
    congruence.
Qed.

(** *** [trim] *)

Lemma trimStart_spec (s : string) :
  exists l, s = l ++ trimStart s /\ allChars isWhiteSpace l = true /\
            forall c r, trimStart s = String c r -> isWhiteSpace c = false.
Proof.
  induction s as [|c s (l & Hs & Hl & Hc)]; simpl.
  - exists EmptyString. repeat split. discriminate.
  - destruct (isWhiteSpace c) eqn:E.
    + exists (String c l). simpl. rewrite E, Hl. repeat split; [congruence | exact Hc].
    + exists EmptyString. repeat split. now intros c' r [= <- _].
Qed.

Lemma last_char_inv (r : string) (c d : ascii) (t : string) :
  String d t = r ++ String c EmptyString ->
  (t = EmptyString /\ r = EmptyString /\ d = c) \/
  (exists r', r = String d r' /\ t = r' ++ String c EmptyString).
Proof.
  destruct r as [|x r]; simpl; intros [= -> ->].
  - now left.
  - right. now exists r.
Qed.

Lemma trimEnd_spec (s : string) :
  exists r, s = trimEnd s ++ r /\ allChars isWhiteSpace r = true /\
            forall r' c, trimEnd s = r' ++ String c EmptyString ->
                         isWhiteSpace c = false.
Proof.
  induction s as [|c s (r & Hs & Hr & Hc)]; simpl.
  - exists EmptyString. repeat split. intros [|? ?] ?; discriminate.
  - destruct (trimEnd s) as [|d t] eqn:E.
    + destruct (isWhiteSpace c) eqn:W.
      * exists (String c r). simpl in *. rewrite W, Hr, Hs. repeat split.
        intros [|? ?] ?; discriminate.
      * exists r. simpl in *. rewrite Hs. repeat split; [exact Hr|].
        intros r' c' H. apply last_char_inv in H as [(_ & _ & ->) | (r'' & _ & H)];
          [exact W | destruct r''; discriminate].
    + exists r. simpl in *. rewrite Hs. repeat split; [exact Hr|].
      intros r' c' H. apply last_char_inv in H as [(H & _) | (r'' & _ & H)];
        [discriminate | now apply Hc with r''].
Qed.

Lemma trimEnd_head (c : ascii) (s : string) :
  isWhiteSpace c = false -> exists t, trimEnd (String c s) = String c t.
Proof.
  intros W. simpl. destruct (trimEnd s); rewrite ?W; eauto.
Qed.

Lemma trim_spec (s : string) : Trimmed s (trim s).
Proof.
  unfold trim.
  destruct (trimStart_spec s) as (l & Hs & Hl & Hc).
  destruct (trimEnd_spec (trimStart s)) as (r & Ht & Hr & Hd).
  exists l, r. repeat split; try assumption.
  - rewrite <- Ht. exact Hs.
  - intros c t H. destruct (trimStart s) as [|d u] eqn:E; [discriminate|].
    assert (isWhiteSpace d = false) as W by now apply Hc with u.
    destruct (trimEnd_head d u W) as [t' H']. rewrite H' in H.
    now injection H as <- _.
Qed.

Lemma trimEnd_noop (s : string) :
  (forall r c, s = r ++ String c EmptyString -> isWhiteSpace c = false) ->
  trimEnd s = s.
Proof.
  induction s as [|c s IH]; intros H; simpl; [reflexivity|].
  rewrite IH.
  - destruct s; [|reflexivity]. now rewrite (H EmptyString c eq_refl).
  - intros r d ->. now apply (H (String c r) d).
Qed.

Lemma trim_noop (s : string) : NoOuterWhiteSpace s -> trim s = s.
Proof.
  intros [Hh Ht]. unfold trim.
  assert (trimStart s = s) as ->; [|now apply trimEnd_noop].
  destruct s as [|c s]; simpl; [reflexivity|]. now rewrite (Hh c s eq_refl).
Qed.

(** *** [split] *)

Lemma splitFrom_skip (sep pre rest : string) :
  splitFrom sep (String.length pre) (pre ++ rest) = splitFrom sep 0 rest.
Proof.
  induction pre as [|c pre IH]; simpl; [|exact IH].
  destruct rest; reflexivity.
Qed.

Lemma split_nonempty (sep s : string) : split sep s <> [].
Proof.
  unfold split. generalize 0. induction s as [|c s IH]; intros k; simpl.
  - discriminate.
  - destruct k; [|apply IH]. destruct (startsWith sep (String c s)).
    + discriminate.
    + specialize (IH 0). destruct (splitFrom sep 0 s); [contradiction | discriminate].
Qed.

(** At an occurrence of the separator the scan closes a piece and
    resumes behind the separator. *)
Lemma split_at_separator (c : ascii) (sep' rest : string) :
  split (String c sep') (String c sep' ++ rest)
  = EmptyString :: split (String c sep') rest.
Proof.
  unfold split. cbn [append splitFrom].
  assert (startsWith (String c sep') (String c (sep' ++ rest)) = true) as ->
    by (apply startsWith_iff; now exists rest).
  f_equal.
  replace (String.length (String c sep') - 1) with (String.length sep')
    by (simpl; lia).
  apply splitFrom_skip.
Qed.

Lemma split_off_separator (sep : string) (c : ascii) (s : string) :
  startsWith sep (String c s) = false ->
  split sep (String c s) = consHead c (split sep s).
Proof. unfold split. cbn [splitFrom]. now intros ->. Qed.

Lemma Occurs_tail (p : string) (c : ascii) (s : string) :
  Occurs p s -> Occurs p (String c s).
Proof. intros (pre & post & ->). now exists (String c pre), post. Qed.

Lemma startsWith_Occurs (p s : string) : startsWith p s = true -> Occurs p s.
Proof. intros H. apply startsWith_iff in H as [r ->]. now exists EmptyString, r. Qed.

Lemma split_no_occurrence (sep s : string) :
  sep <> EmptyString -> ~ Occurs sep s -> split sep s = [s].
Proof.
  intros Hsep. induction s as [|c s IH]; intros H; [reflexivity|].
  rewrite split_off_separator.
  - rewrite IH; [reflexivity|]. intros H'. apply H. now apply Occurs_tail.
  - destruct (startsWith sep (String c s)) eqn:E; [|reflexivity].
    exfalso. apply H. now apply startsWith_Occurs.
Qed.

Lemma consHead_app (c : ascii) (front : list string) (b : string) :
  front <> [] -> consHead c (front ++ [b])%list = (consHead c front ++ [b])%list.
Proof. destruct front; [contradiction | reflexivity]. Qed.

Lemma consHead_nonempty (c : ascii) (l : list string) : consHead c l <> [].
Proof. destruct l; discriminate. Qed.

(** The separator ["]("] cannot overlap itself, so the last piece of the
    scan is what follows its last occurrence. *)
Lemma split_link_last (n : nat) : forall a b : string,
  String.length a <= n -> ~ Occurs "](" b ->
  exists front, front <> [] /\
                split "](" (a ++ "](" ++ b) = (front ++ [b])%list.
Proof.
  induction n as [|n IH]; intros a b Hl Hb.
  - destruct a; [|simpl in Hl; lia].
    exists [EmptyString]. split; [discriminate|].
    cbn [append]. change (String "]" (String "(" b)) with ("](" ++ b).
    rewrite split_at_separator, split_no_occurrence; [reflexivity | discriminate | exact Hb].
  - destruct a as [|c a].
    + apply (IH EmptyString b); [simpl; lia | exact Hb].
    + destruct (startsWith "](" (String c a ++ "](" ++ b)) eqn:E.
      * destruct a as [|d a].
        -- cbn [append startsWith] in E. rewrite andb_false_r in E. discriminate.
        -- assert (c = "]"%char /\ d = "("%char) as [-> ->].
           { cbn [append startsWith] in E. apply andb_true_iff in E as [E1 E2].
             apply andb_true_iff in E2 as [E2 _].
             apply Ascii.eqb_eq in E1, E2. now split. }
           destruct (IH a b) as (front & Hf & Hs); [simpl in Hl; lia | exact Hb |].
           exists (EmptyString :: front). split; [discriminate|].
           change (String "]" (String "(" a) ++ "](" ++ b)
             with ("](" ++ (a ++ "](" ++ b)).
           rewrite split_at_separator, Hs. reflexivity.
      * destruct (IH a b) as (front & Hf & Hs); [simpl in Hl; lia | exact Hb |].
        exists (consHead c front). split; [apply consHead_nonempty|].
        cbn [append] in *. rewrite split_off_separator by exact E.
        rewrite Hs. now apply consHead_app.
Qed.

(** A string in which [sep] occurs has a last occurrence of it. *)
Lemma last_occurrence (sep : string) (n : nat) : forall s : string,
  sep <> EmptyString -> String.length s <= n -> Occurs sep s ->
  exists before seg, s = before ++ sep ++ seg /\ ~ Occurs sep seg.
Proof.
  induction n as [|n IH]; intros s Hsep Hl (pre & post & Hs).
  - exfalso. subst s. rewrite !length_append' in Hl.
    destruct sep; [contradiction | simpl in Hl; lia].
  - destruct (includes sep post) eqn:E.
    + apply includes_true_iff in E.
      destruct (IH post Hsep) as (before & seg & Hp & Hseg); [|exact E|].
      * subst s. rewrite !length_append' in Hl.
        destruct sep; [contradiction | simpl in Hl; lia].
      * exists (pre ++ sep ++ before), seg. split; [|exact Hseg].
        rewrite Hs, Hp, !append_assoc'. reflexivity.
    + apply includes_false_iff in E. now exists pre, post.
Qed.

Lemma split_link_LastSegment (s : string) :
  LastSegment "](" s (last (split "](" s) EmptyString).
Proof.
  destruct (includes "](" s) eqn:E.
  - apply includes_true_iff in E.
    destruct (last_occurrence "](" (String.length s) s) as (before & seg & Hs & Hseg);
      [discriminate | lia | exact E |].
    right. exists before.
    destruct (split_link_last (String.length before) before seg (le_n _) Hseg)
      as (front & _ & Hsp).
    subst s. rewrite Hsp, last_last. now split.
  - apply includes_false_iff in E. left.
    rewrite split_no_occurrence; [now split | discriminate | exact E].
Qed.

(** *** [replace] *)

Lemma replace_first (p r s pre post : string) :
  FirstOccurrence p s pre post -> replace p r s = pre ++ r ++ post.
Proof.
  intros H. unfold replace. rewrite (indexOf_first _ _ _ _ H).
  destruct H as [-> _]. rewrite substringTo_append.
  rewrite <- length_append', <- (append_assoc' pre p post), substringFrom_append.
  reflexivity.
Qed.

Lemma replace_WithoutFirst (p s : string) : WithoutFirst p s (replace p "" s).
Proof.
  destruct (indexOf p s) as [i|] eqn:E.
  - right. destruct (indexOf_Some _ _ _ E) as (pre & post & H & _).
    exists pre, post. split; [exact H|]. now rewrite (replace_first _ _ _ _ _ H).
  - left. split; [now apply indexOf_None|]. unfold replace. now rewrite E.
Qed.

Lemma replace_absent (p r s : string) : ~ Occurs p s -> replace p r s = s.
Proof.
  intros H. unfold replace. destruct (indexOf p s) eqn:E; [|reflexivity].
  exfalso. apply H. apply includes_true_iff. unfold includes. now rewrite E.
Qed.

(** *** [split] on the pattern [[\r\n]+] *)

Lemma SplitOnRuns_consHead (c : ascii) (s : string) (pieces : list string) :
  notCrLf c = true -> SplitOnRuns s pieces ->
  SplitOnRuns (String c s) (consHead c pieces).
Proof.
  intros Hc H. destruct H as [s Hs | piece run rest pieces Hp Hr Hrun Hrest H].
  - apply SplitOnRuns_last. simpl. now rewrite Hc, Hs.
  - change (String c (piece ++ run ++ rest)) with (String c piece ++ run ++ rest).
    apply SplitOnRuns_cut; try assumption. simpl. now rewrite Hc, Hp.
Qed.

(** Inside a run the scan passes the rest of the run and goes on as at
    the start of a line. *)
Lemma splitLinesFrom_spec (s : string) :
  SplitOnRuns s (splitLinesFrom false s) /\
  exists run rest,
    s = run ++ rest /\ allChars isCrLf run = true /\ startsLine rest = true /\
    splitLinesFrom true s = splitLinesFrom false rest /\
    SplitOnRuns rest (splitLinesFrom false rest).
Proof.
  induction s as [|c s [IHP (run & rest & Hs & Hrun & Hrest & Hin & Hsp)]].
  - split; [now apply SplitOnRuns_last|].
    exists EmptyString, EmptyString. repeat split; now apply SplitOnRuns_last.
  - cbn [splitLinesFrom]. destruct (isCrLf c) eqn:E.
    + split.
      * rewrite Hin, Hs.
        change (String c (run ++ rest)) with (EmptyString ++ String c run ++ rest).
        apply SplitOnRuns_cut; try assumption; [reflexivity | discriminate |].
        simpl. now rewrite E, Hrun.
      * exists (String c run), rest. cbn [allChars append]. rewrite E, Hrun.
        repeat split; try assumption. now rewrite Hs.
    + assert (notCrLf c = true) as Hc by (unfold notCrLf; now rewrite E).
      assert (SplitOnRuns (String c s) (consHead c (splitLinesFrom false s))) as H
        by now apply SplitOnRuns_consHead.
      split; [exact H|].
      exists EmptyString, (String c s). cbn [append splitLinesFrom startsLine].
      rewrite E. now repeat split.
Qed.

Lemma splitLines_spec (s : string) : SplitOnRuns s (splitLines s).
Proof. apply splitLinesFrom_spec. Qed.

Lemma allChars_append (f : ascii -> bool) (a b : string) :
  allChars f (a ++ b) = allChars f a && allChars f b.
Proof.
  induction a as [|c a IH]; simpl; [reflexivity | now rewrite IH, andb_assoc].
Qed.

(** A string has one decomposition into a prefix whose code units all
    satisfy [f] and a rest that is empty or starts with one that does
    not. *)
Lemma maximal_prefix_unique (f : ascii -> bool) : forall a1 a2 b1 b2 : string,
  allChars f a1 = true -> allChars f a2 = true ->
  stopsAt f b1 = true -> stopsAt f b2 = true ->
  a1 ++ b1 = a2 ++ b2 -> a1 = a2 /\ b1 = b2.
Proof.
  induction a1 as [|c a1 IH]; intros [|d a2] b1 b2 H1 H2 Hb1 Hb2 H;
    cbn [append] in H.
  - now split.
  - exfalso. subst b1. cbn in Hb1, H2. apply negb_true_iff in Hb1.
    apply andb_true_iff in H2 as [H2 _]. congruence.
  - exfalso. subst b2. cbn in Hb2, H1. apply negb_true_iff in Hb2.
    apply andb_true_iff in H1 as [H1 _]. congruence.
  - injection H as -> H. cbn in H1, H2.
    apply andb_true_iff in H1 as [_ H1]. apply andb_true_iff in H2 as [_ H2].
    destruct (IH a2 b1 b2 H1 H2 Hb1 Hb2 H) as [-> ->]. now split.
Qed.

Lemma head_of_run (run rest : string) :
  run <> EmptyString -> allChars isCrLf run = true ->
  stopsAt notCrLf (run ++ rest) = true.
Proof.
  destruct run as [|c run]; [contradiction|]. intros _ H. cbn in *.
  apply andb_true_iff in H as [H _]. unfold notCrLf. now rewrite H.
Qed.

Lemma head_of_line (rest : string) :
  startsLine rest = true -> stopsAt isCrLf rest = true.
Proof. destruct rest as [|c rest]; [reflexivity | exact (fun H => H)]. Qed.

(** The split on runs of a string is unique. *)
Lemma SplitOnRuns_functional (s : string) (l1 l2 : list string) :
  SplitOnRuns s l1 -> SplitOnRuns s l2 -> l1 = l2.
Proof.
  intros H1. revert l2.
  induction H1 as [s Hs | piece run rest pieces Hp Hr Hrun Hrest H1 IH];
    intros l2 H2.
  - inversion H2 as [s' Hs' | piece run rest pieces Hp Hr Hrun Hrest H Heq];
      subst; [reflexivity|].
    exfalso. rewrite !allChars_append in Hs.
    apply andb_true_iff in Hs as [_ Hs]. apply andb_true_iff in Hs as [Hs _].
    destruct run as [|c run]; [contradiction|]. cbn in Hs, Hrun.
    apply andb_true_iff in Hs as [Hs _]. apply andb_true_iff in Hrun as [Hrun _].
    unfold notCrLf in Hs. rewrite Hrun in Hs. discriminate.
  - inversion H2 as [s' Hs' | piece' run' rest' pieces' Hp' Hr' Hrun' Hrest' H Heq];
      subst.
    + exfalso. rewrite !allChars_append in Hs'.
      apply andb_true_iff in Hs' as [_ Hs]. apply andb_true_iff in Hs as [Hs _].
      destruct run as [|c run]; [contradiction|]. cbn in Hs, Hrun.
      apply andb_true_iff in Hs as [Hs _]. apply andb_true_iff in Hrun as [Hrun _].
      unfold notCrLf in Hs. rewrite Hrun in Hs. discriminate.
    + destruct (maximal_prefix_unique notCrLf piece' piece
                  (run' ++ rest') (run ++ rest) Hp' Hp
                  (head_of_run run' rest' Hr' Hrun')
                  (head_of_run run rest Hr Hrun) Heq) as [-> Hrr].
      destruct (maximal_prefix_unique isCrLf run' run rest' rest Hrun' Hrun
                  (head_of_line rest' Hrest') (head_of_line rest Hrest) Hrr)
        as [-> ->].
      f_equal. now apply IH.
Qed.

(** *** The pattern [/^#\d+$/] *)

Lemma allDigits_allChars (s : string) : allDigits s = allChars isDigit s.
Proof. induction s as [|c s IH]; simpl; [reflexivity | now rewrite IH]. Qed.

Lemma testHashDigits_iff (line : string) :
  testHashDigits line = true <-> HashDigits line.
Proof.
  unfold testHashDigits, HashDigits. destruct line as [|c ds].
  - split; [discriminate | intros (d & H & _); discriminate].
  - rewrite !andb_true_iff, negb_true_iff, Ascii.eqb_eq, String.eqb_neq,
      allDigits_allChars.
    split.
    + intros [[-> Hne] Hd]. now exists ds.
    + intros (d & [= -> ->] & Hne & Hd). now repeat split.
Qed.

Lemma testHashDigits_false_iff (line : string) :
  testHashDigits line = false <-> ~ HashDigits line.
Proof.
  rewrite <- testHashDigits_iff. destruct (testHashDigits line); split;
    intros H; congruence.
Qed.

(* ================================================================== *)
(** ** Running the parser *)
(* ================================================================== *)

Lemma updateAt_end (st : Store) (a : list string) (f : list string -> list string) :
  updateAt (List.length st) f (st ++ [a])%list = (st ++ [f a])%list.
Proof. induction st as [|x st IH]; simpl; [reflexivity | now rewrite IH]. Qed.

Lemma nth_end (st : Store) (a : list string) :
  nth (List.length st) (st ++ [a])%list [] = a.
Proof. induction st as [|x st IH]; simpl; [reflexivity | exact IH]. Qed.

Lemma bind_run {S A B} (m : M S A) (k : A -> M S B) (st : S) :
  bind m k st
  = match m st with
    | (Return a, st') => k a st'
    | (Throw e, st') => (Throw e, st')
    end.
Proof. reflexivity. Qed.

(** One iteration of the loop of [getValidChildrenLinks]. *)
Lemma loop_body_run (issue : Issue) (line : string) (st : Store)
    (acc : list string) :
  tryCatch
    (url <- call (getUrlStringForChildrenLine line issue) ;;
     push (List.length st) url ;;;
     ret Continue)
    (fun e => ret Break)
    (st ++ [acc])%list
  = match getUrlStringForChildrenLine line issue with
    | Return url => (Return Continue, (st ++ [(acc ++ [url])%list])%list)
    | Throw _ => (Return Break, (st ++ [acc])%list)
    end.
Proof.
  unfold tryCatch, bind, call, push, ret.
  destruct (getUrlStringForChildrenLine line issue); [|reflexivity].
  now rewrite updateAt_end.
Qed.

(** The loop of [getValidChildrenLinks], started with the array holding
    [acc], leaves it holding [acc] followed by the resolved prefix. *)
Lemma forOf_push_run (issue : Issue) (lines : list string) :
  forall (st : Store) (acc : list string),
    forOf lines
      (fun line =>
         tryCatch
           (url <- call (getUrlStringForChildrenLine line issue) ;;
            push (List.length st) url ;;;
            ret Continue)
           (fun e => ret Break))
      (st ++ [acc])%list
    = (Return tt, (st ++ [(acc ++ resolvedPrefix issue lines)%list])%list).
Proof.
  induction lines as [|line lines IH]; intros st acc; cbn [forOf resolvedPrefix].
  - unfold ret. now rewrite app_nil_r.
  - rewrite bind_run, loop_body_run.
    destruct (getUrlStringForChildrenLine line issue) as [url|e].
    + rewrite IH, <- app_assoc. reflexivity.
    + unfold ret. now rewrite app_nil_r.
Qed.

Lemma getValidChildrenLinks_run (lines : list string) (issue : Issue) (st : Store) :
  getValidChildrenLinks lines issue st
  = (Return (resolvedPrefix issue lines), (st ++ [resolvedPrefix issue lines])%list).
Proof.
  unfold getValidChildrenLinks. rewrite bind_run. unfold newArray at 1.
  rewrite bind_run, (forOf_push_run issue lines st []).
  unfold elementsOf. cbn [app]. now rewrite nth_end.
Qed.

Lemma convertLinesToChildren_run (lines : list string) (issue : Issue)
    (group : string) (st : Store) :
  convertLinesToChildren lines issue group st
  = (Return (map (Child.mk (Some group)) (resolvedPrefix issue lines)),
     (st ++ [resolvedPrefix issue lines])%list).
Proof.
  unfold convertLinesToChildren, bind. now rewrite getValidChildrenLinks_run.
Qed.

Lemma length_zero_iff (A : Type) (l : list A) :
  Nat.eqb (List.length l) 0 = true <-> l = [].
Proof. destruct l; simpl; split; congruence. Qed.

Lemma getChildrenFromTaskList_found (issue : Issue) (st : Store) :
  taskListLines issue <> [] ->
  getChildrenFromTaskList issue st
  = (Return (map (Child.mk (Some "tasklist"))
               (resolvedPrefix issue (taskListLines issue))),
     (st ++ [resolvedPrefix issue (taskListLines issue)])%list).
Proof.
  intros H. unfold getChildrenFromTaskList.
  destruct (Nat.eqb (List.length (taskListLines issue)) 0) eqn:E.
  - now apply length_zero_iff in E.
  - apply convertLinesToChildren_run.
Qed.

Lemma getChildrenFromTaskList_missing (issue : Issue) (st : Store) :
  taskListLines issue = [] ->
  getChildrenFromTaskList issue st = (Throw SectionMissingOrEmpty, st).
Proof. intros H. unfold getChildrenFromTaskList. now rewrite H. Qed.

(** The task-list strategy fails only for want of lines. *)
Lemma getChildrenFromTaskList_throws (issue : Issue) (st st' : Store) (e : Exn) :
  getChildrenFromTaskList issue st = (Throw e, st') ->
  taskListLines issue = [] /\ e = SectionMissingOrEmpty /\ st' = st.
Proof.
  destruct (taskListLines issue) as [|l ls] eqn:E.
  - rewrite getChildrenFromTaskList_missing by exact E. now intros [= <- <-].
  - rewrite getChildrenFromTaskList_found by (rewrite E; discriminate).
    discriminate.
Qed.

(* ================================================================== *)
(** ** Resolution of child references *)
(* ================================================================== *)

Lemma validated_Return (line url : string) :
  validated line = Return url <->
  exists u, getValidUrlFromInput line = Return u /\
            includes "github.com" (host u) = true /\ url = href u.
Proof.
  unfold validated. destruct (getValidUrlFromInput line) as [u|e].
  - destruct (includes "github.com" (host u)) eqn:E; split.
    + intros [= <-]. now exists u.
    + intros (u' & [= <-] & _ & ->). reflexivity.
    + discriminate.
    + intros (u' & [= <-] & H & _). congruence.
  - split; [discriminate | intros (u & H & _); discriminate].
Qed.

(** The resolver is the validation of the expanded line. *)
Lemma getUrlStringForChildrenLine_validated (line : string) (issue : Issue) :
  getUrlStringForChildrenLine line issue
  = if testHashDigits line
    then match paramsFromUrl (html_url issue) with
         | Return p => validated (owner p ++ "/" ++ repo p ++ line)
         | Throw e => Throw e
         end
    else validated line.
Proof.
  unfold getUrlStringForChildrenLine, validated, InvalidChildReference.
  destruct (testHashDigits line).
  - destruct (paramsFromUrl (html_url issue)) as [p|e]; [|reflexivity].
    destruct (getValidUrlFromInput _) as [u|e]; [|reflexivity].
    now destruct (includes "github.com" (host u)).
  - destruct (getValidUrlFromInput line) as [u|e]; [|reflexivity].
    now destruct (includes "github.com" (host u)).
Qed.

Lemma resolve_iff (line : string) (issue : Issue) (url : string) :
  getUrlStringForChildrenLine line issue = Return url <->
  ResolvesTo line issue url.
Proof.
  rewrite getUrlStringForChildrenLine_validated. unfold ResolvesTo, ExpandsTo.
  destruct (testHashDigits line) eqn:E.
  - apply testHashDigits_iff in E.
    destruct (paramsFromUrl (html_url issue)) as [p|e].
    + rewrite validated_Return. split.
      * intros (u & Hu & Hh & ->). exists (owner p ++ "/" ++ repo p ++ line), u.
        repeat split; try assumption. left. split; [exact E|]. now exists p.
      * intros (line' & u & [(_ & p' & [= <-] & ->) | (H & _)] & Hu & Hh & ->);
          [now exists u | contradiction].
    + split; [discriminate|].
      intros (line' & u & [(_ & p' & H & _) | (H & _)] & _);
        [discriminate | contradiction].
  - apply testHashDigits_false_iff in E. rewrite validated_Return. split.
    + intros (u & Hu & Hh & ->). exists line, u. repeat split; try assumption.
      now right.
    + intros (line' & u & [(H & _) | (_ & ->)] & Hu & Hh & ->);
        [contradiction | now exists u].
Qed.

Lemma resolve_fails_iff (line : string) (issue : Issue) :
  (exists e, getUrlStringForChildrenLine line issue = Throw e) <->
  FailsToResolve line issue.
Proof.
  unfold FailsToResolve. split.
  - intros [e H] url Hr. apply resolve_iff in Hr. congruence.
  - intros H. destruct (getUrlStringForChildrenLine line issue) as [url|e] eqn:E.
    + exfalso. apply (H url). now apply resolve_iff.
    + now exists e.
Qed.

Lemma ResolvesTo_functional (line : string) (issue : Issue) (u1 u2 : string) :
  ResolvesTo line issue u1 -> ResolvesTo line issue u2 -> u1 = u2.
Proof. rewrite <- !resolve_iff. congruence. Qed.

(** The resolved prefix is the image of a prefix of the lines, and that
    prefix ends at the end of the lines or before a line that fails. *)
Lemma resolvedPrefix_spec (issue : Issue) (lines : list string) :
  exists n,
    n <= List.length lines /\
    Forall2 (fun line url => ResolvesTo line issue url)
      (firstn n lines) (resolvedPrefix issue lines) /\
    (n = List.length lines \/
     exists line, nth_error lines n = Some line /\ FailsToResolve line issue).
Proof.
  induction lines as [|line lines (n & Hn & Hall & Hend)]; cbn [resolvedPrefix].
  - exists 0. split; [simpl; lia|]. split; [constructor | now left].
  - destruct (getUrlStringForChildrenLine line issue) as [url|e] eqn:E.
    + exists (S n). cbn [firstn List.length nth_error].
      split; [lia|]. split.
      * constructor; [now apply resolve_iff | exact Hall].
      * destruct Hend as [-> | H]; [now left | now right].
    + exists 0. cbn [firstn nth_error].
      split; [simpl; lia|]. split; [constructor|].
      right. exists line. split; [reflexivity|].
      apply resolve_fails_iff. now exists e.
Qed.

(** Lines behind a failing line do not count. *)
Lemma resolvedPrefix_stops (issue : Issue) (good : list string) (bad : string)
    (rest urls : list string) :
  Forall2 (fun line url => ResolvesTo line issue url) good urls ->
  FailsToResolve bad issue ->
  resolvedPrefix issue (good ++ bad :: rest)%list = urls.
Proof.
  intros Hgood Hbad. induction Hgood as [|line url good urls H _ IH];
    cbn [app resolvedPrefix].
  - apply resolve_fails_iff in Hbad as [e ->]. reflexivity.
  - apply resolve_iff in H. now rewrite H, IH.
Qed.

Lemma resolvedPrefix_all (issue : Issue) (lines urls : list string) :
  Forall2 (fun line url => ResolvesTo line issue url) lines urls ->
  resolvedPrefix issue lines = urls.
Proof.
  intros H. induction H as [|line url lines urls H _ IH]; cbn [resolvedPrefix].
  - reflexivity.
  - apply resolve_iff in H. now rewrite H, IH.
Qed.

(** C2.  [getValidChildrenLinks] returns the URLs of the longest prefix of
    the lines in which every line resolves (to a valid URL whose host
    contains "github.com"), in line order: the prefix ends at the first
    line that fails, and the lines behind a failing line are not
    consulted, so a resolvable line there is left out and no error is
    raised. *)
Theorem getValidChildrenLinks_longest_resolving_prefix :
  forall (lines : list string) (issue : Issue) (st : Store),
  exists links st',
    getValidChildrenLinks lines issue st = (Return links, st') /\
    (exists n,
        n <= List.length lines /\
        Forall2 (fun line url => ResolvesTo line issue url)
          (firstn n lines) links /\
        (n = List.length lines \/
         exists line, nth_error lines n = Some line /\
                      FailsToResolve line issue)) /\
    (forall good bad rest urls,
        lines = (good ++ bad :: rest)%list ->
        Forall2 (fun line url => ResolvesTo line issue url) good urls ->
        FailsToResolve bad issue ->
        links = urls).
Proof.
  intros lines issue st.
  exists (resolvedPrefix issue lines), (st ++ [resolvedPrefix issue lines])%list.
  split; [apply getValidChildrenLinks_run|]. split.
  - apply resolvedPrefix_spec.
  - intros good bad rest urls -> Hgood Hbad. now apply resolvedPrefix_stops.
Qed.

(** C5.  A line that consists of a hash mark followed by one or more
    digits is rewritten to owner/repo#N, owner and repo being parsed from
    the issue's html_url, and the rewritten line is what validation
    receives; a line of any other shape goes to validation unchanged. *)
Theorem short_reference_expanded_before_validation :
  forall (line : string) (issue : Issue),
    (HashDigits line ->
     forall p, paramsFromUrl (html_url issue) = Return p ->
               getUrlStringForChildrenLine line issue
               = validated (owner p ++ "/" ++ repo p ++ line)) /\
    (~ HashDigits line ->
     getUrlStringForChildrenLine line issue = validated line).
Proof.
  intros line issue. rewrite getUrlStringForChildrenLine_validated. split.
  - intros H p Hp. apply testHashDigits_iff in H. now rewrite H, Hp.
  - intros H. apply testHashDigits_false_iff in H. now rewrite H.
Qed.

(* ================================================================== *)
(** ** The fallback chain *)
(* ================================================================== *)

Lemma tryReturn_run {S A} (body rest : M S A) (st : S) :
  tryReturn body rest st
  = match body st with
    | (Return a, st') => (Return a, st')
    | (Throw _, st') => rest st'
    end.
Proof. reflexivity. Qed.

Lemma getChildrenNew_tasklist (issue : Issue) (st : Store) :
  taskListLines issue <> [] ->
  getChildrenNew issue st = getChildrenFromTaskList issue st.
Proof.
  intros H. unfold getChildrenNew. rewrite tryReturn_run.
  now rewrite (getChildrenFromTaskList_found issue st H).
Qed.

(** Without task-list lines the "children:" section decides. *)
Lemma getChildrenNew_children (issue : Issue) (st : Store) :
  taskListLines issue = [] ->
  getChildrenNew issue st
  = match childrenLines issue with
    | [] => (Throw SectionMissingOrEmpty, st)
    | _ :: _ =>
        if existsb (fun line => startsWith "<" line) (childrenLines issue)
        then (Throw GuardViolation, st)
        else (Return (map (Child.mk (Some "children:"))
                        (resolvedPrefix issue (childrenLines issue))),
              (st ++ [resolvedPrefix issue (childrenLines issue)])%list)
    end.
Proof.
  intros H. unfold getChildrenNew. rewrite tryReturn_run.
  rewrite (getChildrenFromTaskList_missing issue st H).
  destruct (childrenLines issue) as [|l ls] eqn:E; [reflexivity|].
  cbn [List.length Nat.eqb].
  destruct (existsb _ (l :: ls)); [reflexivity|].
  apply convertLinesToChildren_run.
Qed.

(** [getChildren] computes the chain of the specification, whatever the
    store it starts from, and only adds arrays to the store. *)
Lemma getChildren_run (issue : Issue) (st : Store) :
  exists fresh,
    getChildren issue st = (Return (extractChildren issue), (st ++ fresh)%list).
Proof.
  unfold getChildren, extractChildren. rewrite tryReturn_run.
  destruct (taskListLines issue) as [|t ts] eqn:Et.
  - rewrite (getChildrenNew_children issue st Et).
    destruct (childrenLines issue) as [|l ls] eqn:El.
    + exists []. now rewrite app_nil_r.
    + destruct (existsb _ (l :: ls)).
      * exists []. now rewrite app_nil_r.
      * eexists. reflexivity.
  - rewrite getChildrenNew_tasklist by (rewrite Et; discriminate).
    rewrite getChildrenFromTaskList_found by (rewrite Et; discriminate).
    rewrite Et. eexists. reflexivity.
Qed.

Lemma FirstOccurrence_head (p post : string) :
  FirstOccurrence p (p ++ post) EmptyString post.
Proof. split; [reflexivity | intros; simpl; lia]. Qed.

(** The text in front of the header plays no part in a section. *)
Lemma getSectionLines_from_header (text header pre post : string) :
  FirstOccurrence header text pre post ->
  getSectionLines text header = getSectionLines (header ++ post) header.
Proof.
  intros H. unfold getSectionLines.
  rewrite (indexOf_first _ _ _ _ H).
  rewrite (indexOf_first _ _ _ _ (FirstOccurrence_head header post)).
  destruct H as [-> _]. now rewrite substringFrom_append.
Qed.

Lemma resolvedPrefix_withBody (issue : Issue) (text : string) (lines : list string) :
  resolvedPrefix (withBody issue text) lines = resolvedPrefix issue lines.
Proof. induction lines as [|l ls IH]; cbn; [reflexivity | now rewrite IH]. Qed.

Lemma Forall_map_group (g : string) (urls : list string) :
  Forall (fun r => Child.group r = Some g) (map (Child.mk (Some g)) urls).
Proof. induction urls; constructor; [reflexivity | assumption]. Qed.

(** C1 (as amended).  When the task-list section of the body yields at
    least one surviving line, [getChildren] returns the result of the
    task-list strategy: one record, with group "tasklist", for each line
    of the resolved prefix of those lines, in their order.  The
    "children:" strategy is not run and no record carries its group; the
    result is a function of the text from the first task-list header on,
    so "children:" lines in front of it contribute nothing. *)
Theorem getChildren_tasklist_precedence :
  forall (issue : Issue) (st : Store),
    taskListLines issue <> [] ->
    exists records st',
      getChildren issue st = (Return records, st') /\
      getChildrenFromTaskList issue st = (Return records, st') /\
      records = map (Child.mk (Some "tasklist"))
                  (resolvedPrefix issue (taskListLines issue)) /\
      Forall (fun r => Child.group r = Some "tasklist") records /\
      (forall pre post,
          FirstOccurrence "```[tasklist]" (body issue) pre post ->
          getChildren (withBody issue ("```[tasklist]" ++ post)) st
          = (Return records, st')).
Proof.
  intros issue st H.
  exists (map (Child.mk (Some "tasklist")) (resolvedPrefix issue (taskListLines issue))),
         (st ++ [resolvedPrefix issue (taskListLines issue)])%list.
  assert (forall i, taskListLines i <> [] ->
            getChildren i st
            = (Return (map (Child.mk (Some "tasklist"))
                         (resolvedPrefix i (taskListLines i))),
               (st ++ [resolvedPrefix i (taskListLines i)])%list)) as Hrun.
  { intros i Hi. unfold getChildren. rewrite tryReturn_run.
    rewrite getChildrenNew_tasklist by exact Hi.
    now rewrite getChildrenFromTaskList_found by exact Hi. }
  split; [now apply Hrun|].
  split; [now apply getChildrenFromTaskList_found|].
  split; [reflexivity|].
  split; [apply Forall_map_group|].
  intros pre post Hfirst.
  assert (taskListLines (withBody issue ("```[tasklist]" ++ post))
          = taskListLines issue) as Hsame.
  { unfold taskListLines. cbn [body withBody].
    now rewrite (getSectionLines_from_header _ _ _ _ Hfirst). }
  rewrite Hrun by (rewrite Hsame; exact H).
  now rewrite Hsame, resolvedPrefix_withBody.
Qed.

Lemma existsb_startsWith (lines : list string) :
  (exists line, In line lines /\ startsWith "<" line = true) ->
  existsb (fun line => startsWith "<" line) lines = true.
Proof. intros (line & Hin & H). apply existsb_exists. now exists line. Qed.

(** C4.  When the task-list strategy fails and the "children:" section
    yields at least one surviving line, one of which starts with "<", the
    children-line extraction fails with [GuardViolation] and [getChildren]
    returns what the legacy strategy reads from the rendered markup. *)
Theorem children_guard_falls_back_to_legacy :
  forall (issue : Issue) (st st0 : Store) (e : Exn),
    getChildrenFromTaskList issue st = (Throw e, st0) ->
    childrenLines issue <> [] ->
    (exists line, In line (childrenLines issue) /\ startsWith "<" line = true) ->
    getChildrenNew issue st = (Throw GuardViolation, st) /\
    getChildren issue st = (Return (getChildrenLegacy issue), st).
Proof.
  intros issue st st0 e Hfail Hlines Hguard.
  apply getChildrenFromTaskList_throws in Hfail as (Ht & _ & _).
  assert (getChildrenNew issue st = (Throw GuardViolation, st)) as Hnew.
  { rewrite (getChildrenNew_children issue st Ht).
    destruct (childrenLines issue) as [|l ls] eqn:E; [contradiction|].
    now rewrite (existsb_startsWith (l :: ls) Hguard). }
  split; [exact Hnew|].
  unfold getChildren. rewrite tryReturn_run, Hnew. reflexivity.
Qed.

(** C9.  When the text strategy that applies (the task list, or the
    "children:" section once the task list is empty and no line starts
    with "<") has at least one surviving line and its first line fails
    to resolve, [getChildren] returns the empty sequence: it neither
    raises nor consults the legacy strategy. *)
Theorem unresolvable_first_line_yields_no_children :
  forall (issue : Issue) (st : Store) (first : string) (rest : list string),
    FailsToResolve first issue ->
    taskListLines issue = first :: rest \/
    (taskListLines issue = [] /\
     childrenLines issue = first :: rest /\
     existsb (fun line => startsWith "<" line) (childrenLines issue) = false) ->
    exists st', getChildren issue st = (Return [], st').
Proof.
  intros issue st first rest Hfail Hcase.
  apply resolve_fails_iff in Hfail as [e Hfail].
  unfold getChildren. rewrite tryReturn_run.
  destruct Hcase as [Ht | (Ht & Hc & Hg)].
  - rewrite getChildrenNew_tasklist by (rewrite Ht; discriminate).
    rewrite getChildrenFromTaskList_found by (rewrite Ht; discriminate).
    rewrite Ht. cbn [resolvedPrefix]. rewrite Hfail. eexists. reflexivity.
  - rewrite (getChildrenNew_children issue st Ht), Hg, Hc.
    cbn [resolvedPrefix]. rewrite Hfail. eexists. reflexivity.
Qed.

(** C8.  Two invocations of [getChildren] on the same issue record, the
    second one started in the store the first one left behind, return the
    same sequence of records; more generally the records returned do not
    depend on the store the call starts from. *)
Theorem getChildren_deterministic :
  forall (issue : Issue) (st : Store),
    (exists records st1 st2,
        getChildren issue st = (Return records, st1) /\
        getChildren issue st1 = (Return records, st2)) /\
    (forall other, fst (getChildren issue other) = fst (getChildren issue st)).
Proof.
  intros issue st. split.
  - destruct (getChildren_run issue st) as [f1 H1].
    destruct (getChildren_run issue (st ++ f1)%list) as [f2 H2].
    now exists (extractChildren issue), (st ++ f1)%list, ((st ++ f1) ++ f2)%list.
  - intros other.
    destruct (getChildren_run issue st) as [f1 ->].
    destruct (getChildren_run issue other) as [f2 ->]. reflexivity.
Qed.

(* ================================================================== *)
(** ** The legacy strategy *)
(* ================================================================== *)

Lemma fold_left_snoc {A B} (f : B -> A) (l : list B) (acc : list A) :
  fold_left (fun a b => (a ++ [f b])%list) l acc = (acc ++ map f l)%list.
Proof.
  revert acc; induction l as [|b l IH]; intros acc; simpl.
  - now rewrite app_nil_r.
  - now rewrite IH, <- app_assoc.
Qed.

Lemma concat_map_map {A B C} (f : A -> B) (g : B -> list C) (l : list A) :
  concat (map g (map f l)) = flat_map (fun a => g (f a)) l.
Proof. induction l as [|a l IH]; simpl; [reflexivity | now rewrite IH]. Qed.

(** The legacy strategy as a flat map: lists first, anchors within. *)
Lemma getChildrenLegacy_flat_map (issue : Issue) :
  getChildrenLegacy issue
  = flat_map
      (fun ul =>
         map (fun a => Child.mk (listTitleOf ul) (anchorHref (element a)))
           (issueAnchorsOf ul))
      (qualifiedLists issue).
Proof.
  unfold getChildrenLegacy, qualifiedLists, issueAnchorsOf, filterListByTitle.
  rewrite (fold_left_snoc
             (fun b => {| itemGroup := listTitleOf b;
                          hrefs := map (fun v => anchorHref (element v))
                                     (querySelectorAll issueAnchor
                                        (childNodesOf (element b))) |})).
  cbn [app]. rewrite concat_map_map. apply flat_map_ext. intros ul.
  cbn [itemGroup hrefs]. now rewrite map_map.
Qed.

Lemma matches_issueAnchor (n : Node) :
  matches issueAnchor n = true <-> IssueAnchor n.
Proof.
  unfold IssueAnchor. destruct n as [d | tag attrs cs];
    cbn [matches issueAnchor typeSelector attrSelectors forallb matchesAttr].
  - split; [discriminate | intros (? & ? & ? & ? & H & _); discriminate].
  - change (truthy "issue") with true. cbn [andb].
    rewrite andb_true_r, !andb_true_iff, String.eqb_eq. split.
    + intros (<- & Hh & Hk).
      destruct (getAttribute "href" attrs) as [target|] eqn:Eh; [|discriminate].
      destruct (getAttribute "data-hovercard-type" attrs) as [kind|] eqn:Ek;
        [|discriminate].
      exists attrs, cs, target, kind.
      repeat split; [exact Eh | exact Ek | now apply includes_true_iff].
    + intros (attrs' & cs' & target & kind & [= -> <- _] & -> & -> & Ho).
      repeat split. now apply includes_true_iff.
Qed.

Lemma matches_ulElement (n : Node) :
  matches ulElement n = true <-> exists attrs cs, n = ElementNode "ul" attrs cs.
Proof.
  destruct n as [d | tag attrs cs];
    cbn [matches ulElement typeSelector attrSelectors forallb].
  - split; [discriminate | intros (? & ? & H); discriminate].
  - rewrite andb_true_r, String.eqb_eq. split.
    + intros <-. now exists attrs, cs.
    + now intros (? & ? & [= <- _ _]).
Qed.

(** C7.  The legacy strategy outputs, for each <ul> of the parsed markup
    whose previous sibling element has a trimmed text that passes the
    heading classifier, in document order, one record per anchor inside
    it that has an href attribute and a data-hovercard-type attribute
    containing "issue", in document order.  The record's html_url is the
    anchor's href as it is (the host is not tested) and its group is the
    heading text of the list.  This is what [getChildren] returns when
    the text strategies fail. *)
Theorem getChildren_legacy_records :
  forall (issue : Issue),
    getChildrenLegacy issue
    = flat_map
        (fun ul =>
           map (fun a => Child.mk (listTitleOf ul) (anchorHref (element a)))
             (issueAnchorsOf ul))
        (qualifiedLists issue) /\
    (forall ul,
        In ul (qualifiedLists issue) <->
        In ul (forestElements None (parseHTML (body_html issue))) /\
        (exists attrs cs, element ul = ElementNode "ul" attrs cs) /\
        isValidChildren
          (option_map (fun h => trim (textContent h)) (previousElementSibling ul))
        = true) /\
    (forall ul a,
        In a (issueAnchorsOf ul) <->
        In a (forestElements None (childNodesOf (element ul))) /\
        IssueAnchor (element a)) /\
    (forall (st st0 : Store) (e : Exn),
        getChildrenNew issue st = (Throw e, st0) ->
        getChildren issue st = (Return (getChildrenLegacy issue), st0)).
Proof.
  intros issue. split; [|split; [|split]].
  - apply getChildrenLegacy_flat_map.
  - intros ul. unfold qualifiedLists, querySelectorAll, listTitleOf.
    rewrite !filter_In, matches_ulElement. tauto.
  - intros ul a. unfold issueAnchorsOf, querySelectorAll.
    now rewrite filter_In, matches_issueAnchor.
  - intros st st0 e Hnew. unfold getChildren. now rewrite tryReturn_run, Hnew.
Qed.

(* ================================================================== *)
(** ** The due date *)
(* ================================================================== *)

Lemma getDueDate_run (issue : Issue) (em : ErrorManager) :
  getDueDate issue em
  = match getEtaDate (issueTextOf issue) with
    | Return v => (Return {| eta := v |}, em)
    | Throw _ =>
        (Return {| eta := EmptyString |},
         if notNull (html_url issue) && negb (isTrue (root_issue issue))
         then addError (etaNotFound issue) em
         else em)
    end.
Proof.
  unfold getDueDate. rewrite bind_run. unfold tryCatch. rewrite bind_run.
  unfold call. destruct (getEtaDate (issueTextOf issue)) as [v|e]; [reflexivity|].
  now destruct (notNull (html_url issue) && negb (isTrue (root_issue issue))).
Qed.

Lemma notNull_true {A} (v : option A) : notNull v = true <-> v <> None.
Proof. destruct v; simpl; split; congruence. Qed.

Lemma isTrue_false (v : option bool) : isTrue v = false <-> v <> Some true.
Proof. destruct v as [[|]|]; simpl; split; congruence. Qed.

(** C3 (as amended).  [getDueDate] never throws and returns an object
    whose [eta] is the scanned token or the empty string.  When the
    scanner fails it hands exactly one entry (anchor "#eta", title "ETA
    not found", message "ETA not found in issue body") to the collector
    if [html_url] is not null (the empty string counts as present) and
    [root_issue] is not true; in the other failure cases, as on success,
    the collector is left as it was. *)
Theorem getDueDate_never_throws :
  forall (issue : Issue) (em : ErrorManager),
    (exists s em', getDueDate issue em = (Return {| eta := s |}, em') /\
                   (getEtaDate (issueTextOf issue) = Return s \/
                    s = EmptyString)) /\
    (forall e, getEtaDate (issueTextOf issue) = Throw e ->
       (html_url issue <> None /\ root_issue issue <> Some true ->
        getDueDate issue em
        = (Return {| eta := EmptyString |}, addError (etaNotFound issue) em)) /\
       (html_url issue = None \/ root_issue issue = Some true ->
        getDueDate issue em = (Return {| eta := EmptyString |}, em))) /\
    etaNotFound issue
    = {| issue := issue;
         userGuideSection := "#eta";
         errorTitle := "ETA not found";
         errorMessage := "ETA not found in issue body" |}.
Proof.
  intros issue em. rewrite getDueDate_run. split; [|split; [|reflexivity]].
  - destruct (getEtaDate (issueTextOf issue)) as [v|e]; eauto.
  - intros e ->. split.
    + intros [Hu Hr]. apply notNull_true in Hu. apply isTrue_false in Hr.
      now rewrite Hu, Hr.
    + intros [-> | ->]; [reflexivity|]. cbn. now rewrite andb_false_r.
Qed.

(** C10.  When the scanner succeeds on the flattened text of the body
    markup, [getDueDate] returns the scanner's result as [eta] and leaves
    the collector unchanged, whatever [html_url] and [root_issue] are. *)
Theorem getDueDate_success_keeps_collector :
  forall (issue : Issue) (em : ErrorManager) (v : string),
    getEtaDate (issueTextOf issue) = Return v ->
    getDueDate issue em = (Return {| eta := v |}, em).
Proof. intros issue em v H. now rewrite getDueDate_run, H. Qed.

(* ================================================================== *)
(** ** The section locator *)
(* ================================================================== *)

Lemma getUrlFromMarkdownText_Unwrapped (line : string) :
  Unwrapped line (getUrlFromMarkdownText line).
Proof.
  exists (trim line), (last (split "](" (trim line)) EmptyString).
  split; [apply trim_spec|]. split; [apply split_link_LastSegment|].
  apply replace_WithoutFirst.
Qed.

Lemma getUrlFromMarkdownText_noop (line : string) :
  NoOuterWhiteSpace line -> ~ Occurs "](" line -> ~ Occurs ")" line ->
  getUrlFromMarkdownText line = line.
Proof.
  intros Hw Hl Hp. unfold getUrlFromMarkdownText.
  rewrite (trim_noop line Hw).
  rewrite split_no_occurrence; [|discriminate | exact Hl].
  now apply replace_absent.
Qed.

Lemma Forall2_map_Unwrapped (lines : list string) :
  Forall2 Unwrapped lines (map getUrlFromMarkdownText lines).
Proof.
  induction lines; constructor;
    [apply getUrlFromMarkdownText_Unwrapped | assumption].
Qed.

(** [indexOf] names the first occurrence. *)
Lemma indexOf_FirstOccurrence (p s : string) (i : nat) :
  indexOf p s = Some i ->
  FirstOccurrence p s (substringTo i s) (substringFrom (i + String.length p) s).
Proof.
  intros H. destruct (indexOf_Some _ _ _ H) as (pre & post & Hf & <-).
  assert (substringTo (String.length pre) s = pre) as ->
    by (destruct Hf as [-> _]; apply substringTo_append).
  assert (substringFrom (String.length pre + String.length p) s = post) as ->;
    [|exact Hf].
  destruct Hf as [-> _].
  rewrite <- length_append', <- (append_assoc' pre p post).
  apply substringFrom_append.
Qed.

Lemma NoOuterWhiteSpace_of_trim (s : string) :
  trim s = s -> NoOuterWhiteSpace s.
Proof.
  intros H. destruct (trim_spec s) as (l & r & _ & _ & _ & Hn).
  now rewrite H in Hn.
Qed.

(** C6 (as amended).  The section locator returns the empty sequence when
    the header token does not occur in the text.  When it occurs, the
    result comes from the text from the first occurrence on, split on runs
    of carriage-return and line-feed characters, the first line dropped,
    each remaining line unwrapped: trimmed of the white space at its ends,
    reduced to what follows the last "](", and freed of the first ")" of
    that segment if there is one.  The unwrap leaves a line unchanged when
    the line has no white space at its ends, no "](" and no ")". *)
Theorem getSectionLines_locates_and_unwraps :
  forall (text token : string),
    (~ Occurs token text -> getSectionLines text token = []) /\
    (forall pre post pieces,
        FirstOccurrence token text pre post ->
        SplitOnRuns (token ++ post) pieces ->
        Forall2 Unwrapped (tl pieces) (getSectionLines text token)) /\
    (forall line,
        NoOuterWhiteSpace line -> ~ Occurs "](" line -> ~ Occurs ")" line ->
        getUrlFromMarkdownText line = line).
Proof.
  intros text token. split; [|split].
  - intros H. unfold getSectionLines.
    destruct (indexOf token text) as [i|] eqn:E; [|reflexivity].
    exfalso. apply H. apply includes_true_iff. unfold includes. now rewrite E.
  - intros pre post pieces Hfirst Hsplit. unfold getSectionLines.
    rewrite (indexOf_first _ _ _ _ Hfirst). destruct Hfirst as [-> _].
    rewrite substringFrom_append.
    rewrite (SplitOnRuns_functional _ _ _ Hsplit (splitLines_spec (token ++ post))).
    apply Forall2_map_Unwrapped.
  - apply getUrlFromMarkdownText_noop.
Qed.

(* ================================================================== *)
(** ** Further properties of the line helpers *)
(* ================================================================== *)

Lemma trimStart_blanks (blanks s : string) :
  allChars isWhiteSpace blanks = true ->
  trimStart (blanks ++ s) = trimStart s.
Proof.
  induction blanks as [|c b IH]; cbn [append allChars trimStart]; [reflexivity|].
  intros H. apply andb_true_iff in H as [-> H]. now apply IH.
Qed.

Lemma trimEnd_blanks (s blanks : string) :
  allChars isWhiteSpace blanks = true ->
  trimEnd (s ++ blanks) = trimEnd s.
Proof.
  intros H. induction s as [|c s IH]; cbn [append].
  - induction blanks as [|b bs IHb]; [reflexivity|].
    cbn [allChars] in H. apply andb_true_iff in H as [Hb H].
    cbn [trimEnd]. now rewrite (IHb H), Hb.
  - cbn [trimEnd]. now rewrite IH.
Qed.

(** [trim] removes the blanks around a core that has none at its ends. *)
Lemma trim_strips (blanks1 core blanks2 : string) :
  allChars isWhiteSpace blanks1 = true ->
  allChars isWhiteSpace blanks2 = true ->
  NoOuterWhiteSpace core ->
  trim (blanks1 ++ core ++ blanks2) = core.
Proof.
  intros H1 H2 Hc. unfold trim. rewrite (trimStart_blanks _ _ H1).
  destruct core as [|c core].
  - cbn [append]. rewrite <- (append_empty_r blanks2).
    rewrite (trimStart_blanks _ _ H2). reflexivity.
  - cbn [append trimStart]. rewrite (proj1 Hc c core eq_refl).
    change (String c (core ++ blanks2)) with (String c core ++ blanks2).
    rewrite (trimEnd_blanks _ _ H2). apply trimEnd_noop, Hc.
Qed.

Lemma indexOf_zero_iff (p s : string) :
  indexOf p s = Some 0 <-> startsWith p s = true.
Proof.
  destruct s as [|c s]; cbn [indexOf]; destruct (startsWith p _); split;
    try reflexivity; try discriminate.
  destruct (indexOf p s); discriminate.
Qed.

Lemma trim_head_dash (line : string) :
  startsWith "-" (trim line) = startsWith "-" (trimStart line).
Proof.
  unfold trim. destruct (trimStart_spec line) as (l & _ & _ & Hc).
  destruct (trimStart line) as [|c r]; [reflexivity|].
  destruct (trimEnd_head c r (Hc c r eq_refl)) as [t ->]. reflexivity.
Qed.

Lemma ensureTaskListChild_iff (line : string) :
  ensureTaskListChild line = true <->
  exists blanks rest,
    line = blanks ++ "-" ++ rest /\ allChars isWhiteSpace blanks = true.
Proof.
  unfold ensureTaskListChild.
  assert (match indexOf "-" (trim line) with Some 0 => true | _ => false end
          = startsWith "-" (trimStart line)) as ->.
  { rewrite <- trim_head_dash.
    destruct (startsWith "-" (trim line)) eqn:E.
    - apply indexOf_zero_iff in E. now rewrite E.
    - destruct (indexOf "-" (trim line)) as [[|n]|] eqn:Ei; try reflexivity.
      apply indexOf_zero_iff in Ei. congruence. }
  rewrite startsWith_iff. split.
  - intros [rest Hr]. destruct (trimStart_spec line) as (l & Hl & Hw & _).
    exists l, rest. split; [now rewrite <- Hr | exact Hw].
  - intros (blanks & rest & -> & Hw). exists rest.
    now rewrite (trimStart_blanks _ _ Hw).
Qed.

(** With a one-character separator the last piece of the scan is what
    follows the last occurrence of the separator. *)
Lemma split_char_last (c : ascii) (b : string) :
  ~ Occurs (String c EmptyString) b ->
  forall a : string,
  exists front, front <> [] /\
                split (String c EmptyString) (a ++ String c EmptyString ++ b)
                = (front ++ [b])%list.
Proof.
  intros Hb. induction a as [|d a (front & Hf & Hs)].
  - exists [EmptyString]. split; [discriminate|].
    cbn [append]. change (String c b) with (String c EmptyString ++ b).
    rewrite split_at_separator, split_no_occurrence;
      [reflexivity | discriminate | exact Hb].
  - destruct (startsWith (String c EmptyString)
                (String d a ++ String c EmptyString ++ b)) eqn:E.
    + assert (d = c) as ->.
      { cbn [append startsWith] in E. apply andb_true_iff in E as [E _].
        apply Ascii.eqb_eq in E. now symmetry. }
      exists (EmptyString :: front). split; [discriminate|].
      change (String c a ++ String c EmptyString ++ b)
        with (String c EmptyString ++ (a ++ String c EmptyString ++ b)).
      rewrite split_at_separator, Hs. reflexivity.
    + exists (consHead d front). split; [apply consHead_nonempty|].
      cbn [append] in *. rewrite split_off_separator by exact E.
      rewrite Hs. now apply consHead_app.
Qed.

Lemma split_char_LastSegment (c : ascii) (s : string) :
  LastSegment (String c EmptyString) s
    (last (split (String c EmptyString) s) EmptyString).
Proof.
  destruct (includes (String c EmptyString) s) eqn:E.
  - apply includes_true_iff in E.
    destruct (last_occurrence (String c EmptyString) (String.length s) s)
      as (before & seg & Hs & Hseg); [discriminate | lia | exact E |].
    right. exists before.
    destruct (split_char_last c seg Hseg before) as (front & _ & Hsp).
    subst s. rewrite Hsp, last_last. now split.
  - apply includes_false_iff in E. left.
    rewrite split_no_occurrence; [now split | discriminate | exact E].
Qed.

Lemma splitAndGetLastItem_spec (line : string) :
  LastSegment " " (trim line) (splitAndGetLastItem line) /\
  ~ Occurs " " (splitAndGetLastItem line) /\
  (truthy (splitAndGetLastItem line) = true <-> trim line <> EmptyString).
Proof.
  unfold splitAndGetLastItem.
  pose proof (split_char_LastSegment " " (trim line)) as H.
  split; [exact H|]. split.
  - destruct H as [[Hn ->] | (before & _ & Hn)]; exact Hn.
  - unfold truthy. rewrite negb_true_iff, String.eqb_neq.
    destruct H as [[_ ->] | (before & Ht & _)]; [tauto|].
    destruct (trim_spec line) as (l & r & _ & _ & _ & _ & Hlast).
    split; intros Hne.
    + intros E. rewrite E in Ht. now destruct before.
    + intros E. rewrite E in Ht. cbn [append] in Ht.
      specialize (Hlast before " "%char Ht). discriminate.
Qed.

Lemma snoc_inj (a b : string) (c d : ascii) :
  a ++ String c EmptyString = b ++ String d EmptyString -> a = b /\ c = d.
Proof.
  revert b; induction a as [|x a IH]; intros [|y b]; cbn [append]; intros E.
  - now injection E as ->.
  - injection E as _ E. destruct b; discriminate.
  - injection E as _ E. destruct a; discriminate.
  - injection E as -> E. destruct (IH b E) as [-> ->]. now split.
Qed.

Lemma snoc_exists (s : string) :
  s <> EmptyString -> exists s' c, s = s' ++ String c EmptyString.
Proof.
  induction s as [|x s IH]; [contradiction|]. intros _.
  destruct s as [|y s].
  - now exists EmptyString, x.
  - destruct IH as (s' & c & E); [discriminate|].
    exists (String x s'), c. cbn [append]. now rewrite E.
Qed.

Lemma not_Occurs_link_token_paren (url : string) :
  ~ Occurs "](" url -> ~ Occurs "](" (url ++ ")").
Proof.
  intros H (pre & post & E). destruct post as [|p post].
  - assert (pre ++ "](" ++ EmptyString = (pre ++ "]") ++ String "(" EmptyString)
      as E' by now rewrite append_assoc'.
    rewrite E' in E. apply snoc_inj in E as [_ E]. discriminate.
  - destruct (snoc_exists (String p post)) as (post' & c & Ep); [discriminate|].
    assert (pre ++ "](" ++ String p post
            = (pre ++ "](" ++ post') ++ String c EmptyString) as E'
      by now rewrite Ep, !append_assoc'.
    rewrite E' in E. apply snoc_inj in E as [E _]. apply H. now exists pre, post'.
Qed.

(** The unwrap of a line that ends in a link: what stands between the
    last "](" and the closing parenthesis. *)
Lemma getUrlFromMarkdownText_link (pre url : string) :
  NoOuterWhiteSpace (pre ++ "](" ++ url ++ ")") ->
  ~ Occurs "](" url -> ~ Occurs ")" url ->
  getUrlFromMarkdownText (pre ++ "](" ++ url ++ ")") = url.
Proof.
  intros Hw Hl Hp. unfold getUrlFromMarkdownText. rewrite (trim_noop _ Hw).
  destruct (split_link_last (String.length pre) pre (url ++ ")") (le_n _)
              (not_Occurs_link_token_paren url Hl)) as (front & _ & ->).
  rewrite last_last.
  rewrite (replace_first ")" "" (url ++ ")") url EmptyString).
  - now rewrite append_empty_r.
  - split; [reflexivity|]. intros pre' post' E.
    destruct (Nat.le_gt_cases (String.length url) (String.length pre'))
      as [Hle | Hgt]; [exact Hle|].
    exfalso. apply Hp. clear Hw Hl Hp front.
    revert pre' E Hgt. induction url as [|c url IH]; intros pre' E Hgt.
    + cbn in Hgt. lia.
    + destruct pre' as [|d pre'].
      * cbn [append] in E. injection E as -> E. now exists EmptyString, url.
      * cbn [append] in E. injection E as -> E.
        destruct (IH pre' E) as (a & b & ->); [cbn in Hgt; lia|].
        now exists (String d a), b.
Qed.

Lemma NoOuterWhiteSpace_ends (c d : ascii) (s : string) :
  isWhiteSpace c = false -> isWhiteSpace d = false ->
  NoOuterWhiteSpace (String c s ++ String d EmptyString).
Proof.
  intros Hc Hd. split.
  - now intros c' r [= <- _].
  - intros r c' E. now apply snoc_inj in E as [_ <-].
Qed.

Lemma splitLines_single (s : string) :
  allChars notCrLf s = true -> splitLines s = [s].
Proof.
  intros H. apply (SplitOnRuns_functional s); [apply splitLines_spec|].
  now apply SplitOnRuns_last.
Qed.

Lemma splitLines_cut (piece run rest : string) :
  allChars notCrLf piece = true -> run <> EmptyString ->
  allChars isCrLf run = true -> startsLine rest = true ->
  splitLines (piece ++ run ++ rest) = piece :: splitLines rest.
Proof.
  intros Hp Hr Hrun Hrest.
  apply (SplitOnRuns_functional (piece ++ run ++ rest)); [apply splitLines_spec|].
  apply SplitOnRuns_cut; try assumption. apply splitLines_spec.
Qed.

Lemma resolvedPrefix_length (issue : Issue) (lines : list string) :
  List.length (resolvedPrefix issue lines) <= List.length lines.
Proof.
  induction lines as [|l ls IH]; cbn [resolvedPrefix List.length]; [lia|].
  destruct (getUrlStringForChildrenLine l issue); cbn [List.length]; lia.
Qed.

Lemma resolvedPrefix_app (issue : Issue) (l1 l2 : list string) :
  resolvedPrefix issue (l1 ++ l2)%list
  = (resolvedPrefix issue l1
     ++ (if Nat.eqb (List.length (resolvedPrefix issue l1)) (List.length l1)
         then resolvedPrefix issue l2 else []))%list.
Proof.
  induction l1 as [|l ls IH]; cbn [app resolvedPrefix List.length]; [reflexivity|].
  destruct (getUrlStringForChildrenLine l issue) as [u|e]; [|reflexivity].
  cbn [List.length app Nat.eqb]. now rewrite IH.
Qed.

Lemma resolvedPrefix_sources (issue : Issue) (lines : list string) :
  Forall (fun url => exists line, In line lines /\ ResolvesTo line issue url)
    (resolvedPrefix issue lines).
Proof.
  induction lines as [|l ls IH]; cbn [resolvedPrefix]; [constructor|].
  destruct (getUrlStringForChildrenLine l issue) as [u|e] eqn:E; constructor.
  - exists l. split; [now left | now apply resolve_iff].
  - eapply Forall_impl; [|exact IH]. intros url (line & Hin & Hr).
    exists line. split; [now right | exact Hr].
Qed.

Lemma resolvedPrefix_ext (i1 i2 : Issue) (lines : list string) :
  html_url i1 = html_url i2 \/ Forall (fun l => ~ HashDigits l) lines ->
  resolvedPrefix i1 lines = resolvedPrefix i2 lines.
Proof.
  intros H. induction lines as [|l ls IH]; cbn [resolvedPrefix]; [reflexivity|].
  assert (getUrlStringForChildrenLine l i1 = getUrlStringForChildrenLine l i2) as ->.
  { rewrite !getUrlStringForChildrenLine_validated.
    destruct H as [-> | H]; [reflexivity|].
    inversion H as [|? ? Hl _]; subst.
    apply testHashDigits_false_iff in Hl. now rewrite Hl. }
  rewrite IH; [reflexivity|]. destruct H as [H | H]; [now left | right].
  now inversion H.
Qed.

Lemma candidate_lines_spec (section : list string) (c : string) :
  In c (filter truthy (map splitAndGetLastItem section)) ->
  c <> EmptyString /\ ~ Occurs " " c /\
  exists line, In line section /\ LastSegment " " (trim line) c.
Proof.
  intros H. apply filter_In in H as [Hin Ht].
  apply in_map_iff in Hin as (line & <- & Hin).
  destruct (splitAndGetLastItem_spec line) as (Hseg & Hsp & _).
  split; [|split; [exact Hsp | now exists line]].
  unfold truthy in Ht. apply negb_true_iff in Ht. now apply String.eqb_neq.
Qed.

Lemma getSectionLines_absent (text token : string) :
  ~ Occurs token text -> getSectionLines text token = [].
Proof.
  intros H. unfold getSectionLines.
  destruct (indexOf token text) as [i|] eqn:E; [|reflexivity].
  exfalso. apply H. apply includes_true_iff. unfold includes. now rewrite E.
Qed.

(* ================================================================== *)
(** ** Further properties of the parser *)
(* ================================================================== *)

(** X1.  [ensureTaskListChild] holds exactly for the lines whose first
    code unit after the leading white space is a dash. *)
Theorem ensureTaskListChild_first_nonblank_is_dash :
  forall line : string,
    ensureTaskListChild line = true <->
    exists blanks rest,
      line = blanks ++ "-" ++ rest /\ allChars isWhiteSpace blanks = true.
Proof. exact ensureTaskListChild_iff. Qed.

(** X2.  [splitAndGetLastItem] returns what follows the last space of the
    trimmed line (the trimmed line itself when it has no space); the
    result holds no space, and it is empty exactly when the line is
    blank, so the [filter(Boolean)] behind it drops the blank lines and
    nothing else. *)
Theorem splitAndGetLastItem_last_token :
  forall line : string,
    LastSegment " " (trim line) (splitAndGetLastItem line) /\
    ~ Occurs " " (splitAndGetLastItem line) /\
    (truthy (splitAndGetLastItem line) = true <-> trim line <> EmptyString).
Proof. exact splitAndGetLastItem_spec. Qed.

(** X3.  A markdown link [[label](url)], with white space around it or
    not, unwraps to its URL, provided the URL holds neither "](" nor
    ")". *)
Theorem getUrlFromMarkdownText_unwraps_link :
  forall blanks1 label url blanks2 : string,
    allChars isWhiteSpace blanks1 = true ->
    allChars isWhiteSpace blanks2 = true ->
    ~ Occurs "](" url -> ~ Occurs ")" url ->
    getUrlFromMarkdownText
      (blanks1 ++ ("[" ++ label ++ "](" ++ url ++ ")") ++ blanks2)
    = url.
Proof.
  intros blanks1 label url blanks2 H1 H2 Hl Hp.
  assert ("[" ++ label ++ "](" ++ url ++ ")"
          = String "[" (label ++ "](" ++ url) ++ String ")" EmptyString) as E
    by (cbn [append]; now rewrite !append_assoc').
  assert (NoOuterWhiteSpace ("[" ++ label ++ "](" ++ url ++ ")")) as Hw
    by (rewrite E; now apply NoOuterWhiteSpace_ends).
  unfold getUrlFromMarkdownText. rewrite (trim_strips _ _ _ H1 H2 Hw).
  rewrite <- (trim_noop _ Hw) at 1.
  apply (getUrlFromMarkdownText_link (String "[" label) url); assumption.
Qed.

(** X4.  The section lines are unwrapped before the task-list filter sees
    them, so a task-list item whose reference is written as a markdown
    link, "- [ ] [label](url)", is judged by its URL: it is a task-list
    child as written, but the filter drops it unless the URL itself
    begins with a dash. *)
Theorem linked_task_item_is_dropped :
  forall label url : string,
    ~ Occurs "](" url -> ~ Occurs ")" url ->
    ensureTaskListChild url = false ->
    ensureTaskListChild ("- [ ] [" ++ label ++ "](" ++ url ++ ")") = true /\
    filter ensureTaskListChild
      (map getUrlFromMarkdownText ["- [ ] [" ++ label ++ "](" ++ url ++ ")"])
    = [].
Proof.
  intros label url Hl Hp Hu. split.
  - apply ensureTaskListChild_iff.
    now exists EmptyString, (" [ ] [" ++ label ++ "](" ++ url ++ ")").
  - assert ("- [ ] [" ++ label ++ "](" ++ url ++ ")"
            = String "-" (" [ ] [" ++ label ++ "](" ++ url)
              ++ String ")" EmptyString) as E
      by (cbn [append]; now rewrite !append_assoc').
    assert (NoOuterWhiteSpace ("- [ ] [" ++ label ++ "](" ++ url ++ ")")) as Hw
      by (rewrite E; now apply NoOuterWhiteSpace_ends).
    cbn [map filter].
    assert (getUrlFromMarkdownText ("- [ ] [" ++ label ++ "](" ++ url ++ ")")
            = url) as ->
      by (apply (getUrlFromMarkdownText_link ("- [ ] [" ++ label) url);
          assumption).
    now rewrite Hu.
Qed.

(** X5.  A section starts on the line after its header: what stands on
    the header's own line, behind the header token, is never a candidate,
    and a header with no line break behind it gives an empty section. *)
Theorem getSectionLines_skips_header_line :
  forall text token pre post : string,
    FirstOccurrence token text pre post ->
    (allChars notCrLf (token ++ post) = true ->
     getSectionLines text token = []) /\
    (forall sameLine run rest,
        post = sameLine ++ run ++ rest ->
        allChars notCrLf (token ++ sameLine) = true ->
        run <> EmptyString -> allChars isCrLf run = true ->
        startsLine rest = true ->
        getSectionLines text token
        = map getUrlFromMarkdownText (splitLines rest)).
Proof.
  intros text token pre post Hfirst.
  assert (getSectionLines text token
          = map getUrlFromMarkdownText (tl (splitLines (token ++ post)))) as ->.
  { unfold getSectionLines. rewrite (indexOf_first _ _ _ _ Hfirst).
    destruct Hfirst as [-> _]. now rewrite substringFrom_append. }
  split.
  - intros H. now rewrite (splitLines_single _ H).
  - intros sameLine run rest -> Hline Hr Hrun Hrest.
    rewrite <- (append_assoc' token sameLine).
    now rewrite (splitLines_cut _ _ _ Hline Hr Hrun Hrest).
Qed.


(** X7.  [getChildrenNew] throws in two cases only, both with the task
    list empty: "Section missing or has no children" when the
    "children:" section yields no line, and "HTML tags found in
    body_text" when one of its lines starts with "<".  A failure of the
    resolver never leaves it, and the store is as it was. *)
Theorem getChildrenNew_throws_only_two_errors :
  forall (issue : Issue) (st st' : Store) (e : Exn),
    getChildrenNew issue st = (Throw e, st') ->
    st' = st /\
    taskListLines issue = [] /\
    ((childrenLines issue = [] /\ e = SectionMissingOrEmpty) \/
     ((exists line, In line (childrenLines issue) /\
                    startsWith "<" line = true) /\
      e = GuardViolation)).
Proof.
  intros issue st st' e H.
  destruct (taskListLines issue) as [|t ts] eqn:Et.
  - rewrite (getChildrenNew_children issue st Et) in H.
    destruct (childrenLines issue) as [|l ls] eqn:El.
    + injection H as <- <-. repeat split. now left.
    + destruct (existsb _ (l :: ls)) eqn:Eg; [|discriminate].
      injection H as <- <-. repeat split. right. split; [|reflexivity].
      apply existsb_exists in Eg as (line & Hin & Hs). now exists line.
  - rewrite getChildrenNew_tasklist in H by (rewrite Et; discriminate).
    rewrite getChildrenFromTaskList_found in H by (rewrite Et; discriminate).
    discriminate.
Qed.

(** X8.  When the body holds neither the task-list header nor
    "children:", [getChildren] returns the legacy result and allocates
    nothing. *)
Theorem getChildren_without_headers_is_legacy :
  forall (issue : Issue) (st : Store),
    ~ Occurs "```[tasklist]" (body issue) ->
    ~ Occurs "children:" (body issue) ->
    getChildren issue st = (Return (getChildrenLegacy issue), st).
Proof.
  intros issue st Ht Hc.
  assert (taskListLines issue = []) as Et
    by (unfold taskListLines; now rewrite (getSectionLines_absent _ _ Ht)).
  assert (childrenLines issue = []) as Ec
    by (unfold childrenLines; now rewrite (getSectionLines_absent _ _ Hc)).
  unfold getChildren. rewrite tryReturn_run.
  now rewrite (getChildrenNew_children issue st Et), Ec.
Qed.

(** X9.  When every candidate line of the strategy that applies resolves,
    [getChildren] returns exactly one record per line, in line order,
    under the strategy's group. *)
Theorem getChildren_one_record_per_resolving_line :
  forall (issue : Issue) (st : Store) (group : string)
         (lines urls : list string),
    (taskListLines issue = lines /\ group = "tasklist") \/
    (taskListLines issue = [] /\ childrenLines issue = lines /\
     existsb (fun line => startsWith "<" line) lines = false /\
     group = "children:") ->
    lines <> [] ->
    Forall2 (fun line url => ResolvesTo line issue url) lines urls ->
    exists st',
      getChildren issue st = (Return (map (Child.mk (Some group)) urls), st') /\
      List.length urls = List.length lines.
Proof.
  intros issue st group lines urls Hcase Hne Hall.
  pose proof (resolvedPrefix_all issue lines urls Hall) as Hp.
  pose proof (Forall2_length Hall) as Hlen.
  unfold getChildren. rewrite tryReturn_run.
  destruct Hcase as [[Ht ->] | (Ht & Hc & Hg & ->)].
  - rewrite getChildrenNew_tasklist by (rewrite Ht; exact Hne).
    rewrite getChildrenFromTaskList_found by (rewrite Ht; exact Hne).
    rewrite Ht, Hp. eexists. split; [reflexivity | now symmetry].
  - rewrite (getChildrenNew_children issue st Ht), Hc, Hg, Hp.
    destruct lines; [contradiction|]. eexists. split; [reflexivity | now symmetry].
Qed.

(** X10.  Every candidate line handed to the resolver, by either text
    strategy, is non-empty, holds no space, and is the last
    space-separated token of a trimmed line of its section; a task-list
    candidate moreover comes from a section line that begins with a dash
    after its leading white space. *)
Theorem candidate_lines_are_last_tokens :
  forall (issue : Issue) (c : string),
    (In c (childrenLines issue) ->
     c <> EmptyString /\ ~ Occurs " " c /\
     exists line, In line (getSectionLines (body issue) "children:") /\
                  LastSegment " " (trim line) c) /\
    (In c (taskListLines issue) ->
     c <> EmptyString /\ ~ Occurs " " c /\
     exists line, In line (getSectionLines (body issue) "```[tasklist]") /\
                  ensureTaskListChild line = true /\
                  LastSegment " " (trim line) c).
Proof.
  intros issue c. split; intros H.
  - now apply candidate_lines_spec.
  - apply candidate_lines_spec in H as (Hne & Hsp & line & Hin & Hseg).
    apply filter_In in Hin as [Hin Hd].
    split; [exact Hne|]. split; [exact Hsp|]. now exists line.
Qed.

(** X11.  The resolver fails in three ways only: a short reference whose
    owner and repository cannot be read from the issue's html_url (the
    error of [paramsFromUrl]), a line the validator rejects (the
    validator's error), and a valid URL whose host does not contain
    "github.com" ("Invalid host for children item"). *)
Theorem getUrlStringForChildrenLine_failures :
  forall (line : string) (issue : Issue) (e : Exn),
    getUrlStringForChildrenLine line issue = Throw e <->
    (HashDigits line /\ paramsFromUrl (html_url issue) = Throw e) \/
    (exists line',
        ExpandsTo line issue line' /\
        (getValidUrlFromInput line' = Throw e \/
         exists u, getValidUrlFromInput line' = Return u /\
                   includes "github.com" (host u) = false /\
                   e = InvalidChildReference)).
Proof.
  intros line issue e. rewrite getUrlStringForChildrenLine_validated.
  assert (forall l, validated l = Throw e <->
            (getValidUrlFromInput l = Throw e \/
             exists u, getValidUrlFromInput l = Return u /\
                       includes "github.com" (host u) = false /\
                       e = InvalidChildReference)) as Hv.
  { intros l. unfold validated. destruct (getValidUrlFromInput l) as [u|e'].
    - destruct (includes "github.com" (host u)) eqn:Eh; split.
      + discriminate.
      + intros [H | (u' & [= <-] & H & _)]; [discriminate | congruence].
      + intros [= <-]. right. now exists u.
      + intros [H | (u' & _ & _ & ->)]; [discriminate | reflexivity].
    - split; [intros [= ->]; now left|].
      intros [[= ->] | (u & H & _)]; [reflexivity | discriminate]. }
  unfold ExpandsTo. destruct (testHashDigits line) eqn:E.
  - apply testHashDigits_iff in E.
    destruct (paramsFromUrl (html_url issue)) as [p|e'].
    + rewrite Hv. split.
      * intros H. right. exists (owner p ++ "/" ++ repo p ++ line).
        split; [|exact H]. left. split; [exact E|]. now exists p.
      * intros [[_ H] | (line' & [(_ & p' & [= <-] & ->) | (H & _)] & Hr)];
          [discriminate | exact Hr | contradiction].
    + split.
      * intros [= ->]. now left.
      * intros [[_ [= ->]] | (line' & [(_ & p' & H & _) | (H & _)] & _)];
          [reflexivity | discriminate | contradiction].
  - apply testHashDigits_false_iff in E. rewrite Hv. split.
    + intros H. right. exists line. split; [now right | exact H].
    + intros [[H _] | (line' & [(H & _) | (_ & ->)] & Hr)];
        [contradiction | contradiction | exact Hr].
Qed.

(** X12.  [getValidChildrenLinks] reads the issue through its html_url
    only, and only for short references: two issues with the same
    html_url, or any two issues when no line has the shape #N, give the
    same URLs. *)
Theorem getValidChildrenLinks_reads_html_url_for_short_references :
  forall (lines : list string) (issue1 issue2 : Issue) (st : Store),
    html_url issue1 = html_url issue2 \/
    Forall (fun line => ~ HashDigits line) lines ->
    getValidChildrenLinks lines issue1 st = getValidChildrenLinks lines issue2 st.
Proof.
  intros lines issue1 issue2 st H.
  now rewrite !getValidChildrenLinks_run, (resolvedPrefix_ext issue1 issue2 lines H).
Qed.

(** X13.  Lines added behind a list never change the URLs already
    found: the result for [lines ++ more] starts with the result for
    [lines], it is that result when some line of [lines] fails, and it
    is followed by the result for [more] when all of [lines] resolve. *)
Theorem getValidChildrenLinks_appended_lines :
  forall (lines more : list string) (issue : Issue) (st : Store),
  exists found foundMore foundAll st1 st2 st3,
    getValidChildrenLinks lines issue st = (Return found, st1) /\
    getValidChildrenLinks more issue st = (Return foundMore, st2) /\
    getValidChildrenLinks (lines ++ more)%list issue st = (Return foundAll, st3) /\
    List.length found <= List.length lines /\
    (List.length found < List.length lines -> foundAll = found) /\
    (List.length found = List.length lines ->
     foundAll = (found ++ foundMore)%list).
Proof.
  intros lines more issue st.
  exists (resolvedPrefix issue lines), (resolvedPrefix issue more),
         (resolvedPrefix issue (lines ++ more)%list).
  do 3 eexists. rewrite !getValidChildrenLinks_run.
  split; [reflexivity|]. split; [reflexivity|]. split; [reflexivity|].
  split; [apply resolvedPrefix_length|].
  rewrite resolvedPrefix_app. split; intros H.
  - apply Nat.lt_neq, Nat.eqb_neq in H. rewrite H. apply app_nil_r.
  - apply Nat.eqb_eq in H. now rewrite H.
Qed.

(** X14.  Every record a text strategy returns carries a URL to which
    one of the strategy's candidate lines resolves, so its host contains
    "github.com"; and there are never more records than candidate
    lines. *)
Theorem getChildrenNew_records_are_resolved_lines :
  forall (issue : Issue) (st st' : Store) (records : list Child.t),
    getChildrenNew issue st = (Return records, st') ->
    exists lines,
      (lines = taskListLines issue \/ lines = childrenLines issue) /\
      List.length records <= List.length lines /\
      Forall (fun r => exists line,
                  In line lines /\
                  ResolvesTo line issue (Child.html_url r))
        records.
Proof.
  intros issue st st' records H.
  assert (forall g lines,
            List.length (map (Child.mk (Some g)) (resolvedPrefix issue lines))
            <= List.length lines /\
            Forall (fun r => exists line,
                        In line lines /\
                        ResolvesTo line issue (Child.html_url r))
              (map (Child.mk (Some g)) (resolvedPrefix issue lines))) as Hmap.
  { intros g lines. rewrite length_map. split; [apply resolvedPrefix_length|].
    apply Forall_map. apply resolvedPrefix_sources. }
  destruct (taskListLines issue) as [|t ts] eqn:Et.
  - rewrite (getChildrenNew_children issue st Et) in H.
    destruct (childrenLines issue) as [|l ls] eqn:El; [discriminate|].
    destruct (existsb _ (l :: ls)); [discriminate|].
    injection H as <- _. exists (l :: ls).
    split; [now right | exact (Hmap "children:" (l :: ls))].
  - rewrite getChildrenNew_tasklist in H by (rewrite Et; discriminate).
    rewrite getChildrenFromTaskList_found in H by (rewrite Et; discriminate).
    rewrite Et in H. injection H as <- _. exists (t :: ts).
    split; [now left | exact (Hmap "tasklist" (t :: ts))].
Qed.

(** X15.  The records of one result never mix the strategies: either all
    carry group "tasklist", or all carry group "children:", or all carry
    a heading that passed the classifier. *)
Theorem getChildren_groups_are_uniform :
  forall (issue : Issue) (st st' : Store) (records : list Child.t),
    getChildren issue st = (Return records, st') ->
    Forall (fun r => Child.group r = Some "tasklist") records \/
    Forall (fun r => Child.group r = Some "children:") records \/
    Forall (fun r => isValidChildren (Child.group r) = true) records.
Proof.
  intros issue st st' records H.
  destruct (getChildren_run issue st) as [fresh Hrun].
  rewrite Hrun in H. injection H as <- _. unfold extractChildren.
  assert (Forall (fun r => isValidChildren (Child.group r) = true)
            (getChildrenLegacy issue)) as Hlegacy.
  { rewrite getChildrenLegacy_flat_map. apply Forall_flat_map.
    apply Forall_forall. intros ul Hul.
    apply filter_In in Hul as [_ Hul]. apply Forall_map.
    apply Forall_forall. intros a _. exact Hul. }
  destruct (taskListLines issue) as [|t ts].
  - destruct (childrenLines issue) as [|l ls]; [now right; right|].
    destruct (existsb _ (l :: ls)); [now right; right|].
    right; left. apply Forall_map_group.
  - left. apply Forall_map_group.
Qed.

(* ================================================================== *)
(** ** The content hash and the view mode *)
(* ================================================================== *)











Lemma split_char_first (c : ascii) (b : string) : forall a : string,
  ~ Occurs (String c EmptyString) a ->
  split (String c EmptyString) (a ++ String c EmptyString ++ b)
  = a :: split (String c EmptyString) b.
Proof.
  induction a as [|d a IH]; intros H.
  - cbn [append]. change (String c b) with (String c EmptyString ++ b).
    apply split_at_separator.
  - change (String d a ++ String c EmptyString ++ b)
      with (String d (a ++ String c EmptyString ++ b)).
    rewrite split_off_separator.
    + rewrite IH; [reflexivity|]. intros Ho. apply H. now apply Occurs_tail.
    + destruct (startsWith (String c EmptyString)
                  (String d (a ++ String c EmptyString ++ b))) eqn:E;
        [|reflexivity].
      exfalso. apply H. cbn [startsWith] in E.
      apply andb_true_iff in E as [E _]. apply Ascii.eqb_eq in E. subst d.
      now exists EmptyString, a.
Qed.

(** X17.  The view mode read from the path of the page is what stands
    between the first "#" and the next one (or the end of the path): a
    path without "#" gives the default mode, and a path that ends in its
    first "#" gives the empty string, not the default. *)
Theorem hashString_reads_first_fragment :
  forall simple urlPath : string,
    (~ Occurs "#" urlPath -> hashString simple urlPath = simple) /\
    (forall path mode tail,
        urlPath = path ++ "#" ++ mode ++ tail ->
        ~ Occurs "#" path -> ~ Occurs "#" mode ->
        tail = EmptyString \/ (exists t, tail = "#" ++ t) ->
        hashString simple urlPath = mode).
Proof.
  intros simple urlPath. unfold hashString. split.
  - intros H. now rewrite split_no_occurrence by (discriminate || exact H).
  - intros path mode tail -> Hp Hm Ht.
    rewrite (split_char_first "#" (mode ++ tail) path Hp).
    destruct Ht as [-> | [t ->]].
    + rewrite append_empty_r.
      now rewrite split_no_occurrence by (discriminate || exact Hm).
    + now rewrite (split_char_first "#" t mode Hm).
Qed.

(* ================================================================== *)
(** ** Nested lists in the legacy strategy *)
(* ================================================================== *)

(** Induction on a document tree, with the hypothesis for every child. *)
Lemma Node_tree_ind (P : Node -> Prop) :
  (forall d, P (TextNode d)) ->
  (forall tag attrs cs, Forall P cs -> P (ElementNode tag attrs cs)) ->
  forall n, P n.
Proof.
  intros Htext Helem. fix IH 1. intros [d | tag attrs cs].
  - apply Htext.
  - apply Helem. induction cs as [|c cs IHcs]; constructor; [apply IH | exact IHcs].
Qed.

Lemma subtreeElements_element (prev : option Node) (tag : string)
    (attrs : list (string * string)) (cs : list Node) :
  subtreeElements prev (ElementNode tag attrs cs)
  = {| element := ElementNode tag attrs cs; previousElementSibling := prev |}
    :: forestElements None cs.
Proof. reflexivity. Qed.

(** The elements below an element of a forest are elements of the
    forest. *)
Lemma forestElements_descend (ns : list Node) :
  forall (prev : option Node) (l a : Located),
    In l (forestElements prev ns) ->
    In a (forestElements None (childNodesOf (element l))) ->
    In a (forestElements prev ns).
Proof.
  assert (forall n prev l a,
            In l (subtreeElements prev n) ->
            In a (forestElements None (childNodesOf (element l))) ->
            In a (subtreeElements prev n)) as Htree.
  { intros n. induction n as [d | tag attrs cs IH] using Node_tree_ind;
      intros prev l a Hl Ha; [contradiction|].
    rewrite subtreeElements_element in *. destruct Hl as [<- | Hl].
    - right. exact Ha.
    - right.
      assert (forall p, In l (forestElements p cs) ->
                        In a (forestElements p cs)) as Hgen; [|now apply Hgen].
      clear Hl prev. induction IH as [|c cs Hc _ IHcs]; intros p Hl;
        [contradiction|].
      cbn [forestElements] in *. apply in_app_iff in Hl as [Hl | Hl];
        apply in_app_iff; [left | right].
      + now apply (Hc p l a).
      + now apply IHcs. }
  induction ns as [|n ns IH]; intros prev l a Hl Ha; [contradiction|].
  cbn [forestElements] in *. apply in_app_iff in Hl as [Hl | Hl];
    apply in_app_iff; [left | right].
  - now apply (Htree n prev l a).
  - now apply (IH _ l a).
Qed.

(** X18.  The anchors of a list are looked up among all its descendants,
    so an issue anchor inside a qualifying list that is nested in another
    qualifying list is reported once under each of the two headings. *)
Theorem nested_list_anchor_reported_for_each_list :
  forall (issue : Issue) (outer inner a : Located),
    In outer (qualifiedLists issue) ->
    In inner (qualifiedLists issue) ->
    In inner (forestElements None (childNodesOf (element outer))) ->
    In a (issueAnchorsOf inner) ->
    In a (issueAnchorsOf outer) /\
    In (Child.mk (listTitleOf outer) (anchorHref (element a)))
      (getChildrenLegacy issue) /\
    In (Child.mk (listTitleOf inner) (anchorHref (element a)))
      (getChildrenLegacy issue).
Proof.
  intros issue outer inner a Hout Hin Hnest Ha.
  assert (In a (issueAnchorsOf outer)) as Ha'.
  { unfold issueAnchorsOf, querySelectorAll in *.
    apply filter_In in Ha as [Ha Hm]. apply filter_In. split; [|exact Hm].
    now apply (forestElements_descend _ None inner a). }
  split; [exact Ha'|]. rewrite getChildrenLegacy_flat_map.
  split; apply in_flat_map.
  - exists outer. split; [exact Hout|]. apply in_map_iff. now exists a.
  - exists inner. split; [exact Hin|]. apply in_map_iff. now exists a.
Qed.

End Parser.

(* ================================================================== *)
(** ** Concrete runs *)
(* ================================================================== *)

#[warnings="-notation-for-abbreviation"]
Notation runChildren :=
  (getChildren TestDouble.parseHTML TestDouble.anchorHref
     TestDouble.getValidUrlFromInput TestDouble.paramsFromUrl
     TestDouble.isValidChildren) (only parsing).
#[warnings="-notation-for-abbreviation"]
Notation runResolve :=
  (getUrlStringForChildrenLine TestDouble.getValidUrlFromInput
     TestDouble.paramsFromUrl) (only parsing).
#[warnings="-notation-for-abbreviation"]
Notation runDueDate :=
  (getDueDate TestDouble.parseHTML TestDouble.getEtaDate (list ErrorEntry)
     TestDouble.addError) (only parsing).
#[warnings="-notation-for-abbreviation"]
Notation tasklist url := (Child.mk (Some "tasklist") url) (only parsing).
#[warnings="-notation-for-abbreviation"]
Notation children url := (Child.mk (Some "children:") url) (only parsing).

(** *** The string methods on small inputs *)

Example split_on_space : split " " "- [ ] #121" = ["-"; "["; "]"; "#121"].
Proof. reflexivity. Qed.

Example split_on_link_token :
  split "](" "[a](b)](c)" = ["[a"; "b)"; "c)"]
  /\ split "](" "a](" = ["a"; EmptyString].
Proof. split; reflexivity. Qed.

Example splitLines_on_runs :
  splitLines ("a" ++ CRLF ++ LF ++ "b" ++ LF) = ["a"; "b"; EmptyString]
  /\ splitLines (LF ++ "a") = [EmptyString; "a"]
  /\ splitLines EmptyString = [EmptyString].
Proof. repeat split. Qed.

Example trim_blanks : trim "  - #10 " = "- #10".
Proof. reflexivity. Qed.

Example replace_first_only : replace ")" "" "a)b)" = "ab)".
Proof. reflexivity. Qed.

Example testHashDigits_shapes :
  testHashDigits "#123" = true /\ testHashDigits "#" = false
  /\ testHashDigits "o/r#1" = false /\ testHashDigits "#12a" = false.
Proof. repeat split. Qed.

(** *** The unit tests of [parser.test.ts] *)

Example test_tasklist_body_with_children :
  fst (runChildren Sample.tasklistIssue [])
  = Return [tasklist "https://github.com/ipfs/ipfs-gui/issues/121";
            tasklist "https://github.com/ipfs/ipfs-gui/issues/122";
            tasklist "https://github.com/ipfs/ipfs-gui/issues/123";
            tasklist "https://github.com/ipfs/ipfs-gui/issues/124"].
Proof. vm_compute. reflexivity. Qed.

Example test_body_with_extraneous_link :
  fst (runChildren Sample.extraneousLinkIssue [])
  = Return [children "https://github.com/filecoin-station/roadmap/issues/5";
            children "https://github.com/filecoin-station/roadmap/issues/7";
            children "https://github.com/filecoin-station/roadmap/issues/3";
            children "https://github.com/filecoin-station/roadmap/issues/10";
            children "https://github.com/filecoin-station/roadmap/issues/11"].
Proof. vm_compute. reflexivity. Qed.

Example test_body_with_extraneous_markdown_link :
  fst (runChildren Sample.markdownLinkIssue [])
  = Return [children "https://github.com/filecoin-project/rust-fil-proofs/issues/1644"].
Proof. vm_compute. reflexivity. Qed.

(** The example of section 8 of the specification. *)
Example spec_example_see_also :
  fst (runChildren Sample.seeAlsoIssue [])
  = Return [children "https://github.com/o/r/issues/5";
            children "https://github.com/o/r/issues/7";
            children "https://github.com/o/r/issues/10";
            children "https://github.com/o/r/issues/11"].
Proof. vm_compute. reflexivity. Qed.

(** The legacy strategy on rendered markup. *)
Example legacy_markup_run :
  fst (runChildren Sample.legacyIssue [])
  = Return [children "https://github.com/protocol/bedrock/issues/5";
            children "https://example.org/tracker/11"].
Proof. vm_compute. reflexivity. Qed.

Example getSectionLines_notes :
  getSectionLines Sample.notesText "notes:"
  = ["https://example.org/a."; "see b and c"; "#7"].
Proof. vm_compute. reflexivity. Qed.

(** *** The theorems at work *)

(** C1: the task list of the unit test wins over the "children:" list in
    front of it. *)
Lemma getChildren_tasklist_precedence_witness :
  taskListLines Sample.tasklistIssue <> [] /\
  exists records st',
    runChildren Sample.tasklistIssue [] = (Return records, st') /\
    Forall (fun r => Child.group r = Some "tasklist") records.
Proof.
  assert (taskListLines Sample.tasklistIssue <> []) as H
    by (vm_compute; discriminate).
  split; [exact H|].
  destruct (getChildren_tasklist_precedence
              TestDouble.parseHTML TestDouble.anchorHref
              TestDouble.getValidUrlFromInput TestDouble.paramsFromUrl
              TestDouble.isValidChildren Sample.tasklistIssue [] H)
    as (records & st' & H1 & _ & _ & H4 & _).
  exists records, st'. split; assumption.
Defined.

(** C1 as first stated fails: both sections yield a surviving line, and
    the line "- #2" of the separate "children:" list, which stands behind
    the task list, contributes the second record. *)
Lemma children_after_tasklist_contribute_records :
  taskListLines Sample.trailingChildrenIssue = ["#1"; "#2"] /\
  childrenLines Sample.trailingChildrenIssue = ["#2"] /\
  runResolve "#2" Sample.trailingChildrenIssue
  = Return "https://github.com/o/r/issues/2" /\
  fst (runChildren Sample.trailingChildrenIssue [])
  = Return [tasklist "https://github.com/o/r/issues/1";
            tasklist "https://github.com/o/r/issues/2"].
Proof. split; [|split; [|split]]; vm_compute; reflexivity. Qed.

(** C2: the resolvable "#11" behind the failing line is left out. *)
Lemma getValidChildrenLinks_longest_resolving_prefix_witness :
  exists links st',
    getValidChildrenLinks TestDouble.getValidUrlFromInput
      TestDouble.paramsFromUrl Sample.mixedLines Sample.seeAlsoIssue []
    = (Return links, st') /\
    links = ["https://github.com/o/r/issues/5"; "https://github.com/o/r/issues/10"] /\
    runResolve "#11" Sample.seeAlsoIssue = Return "https://github.com/o/r/issues/11".
Proof.
  destruct (getValidChildrenLinks_longest_resolving_prefix
              TestDouble.getValidUrlFromInput TestDouble.paramsFromUrl
              Sample.mixedLines Sample.seeAlsoIssue [])
    as (links & st' & Hrun & _ & Hstop).
  exists links, st'. split; [exact Hrun|]. split; [|reflexivity].
  apply (Hstop ["https://github.com/o/r/issues/5"; "#10"]
           "https://unrelated.example/x" ["#11"]).
  - reflexivity.
  - repeat constructor; apply resolve_iff; reflexivity.
  - apply resolve_fails_iff. eexists. reflexivity.
Defined.

(** C3: for want of an ETA the issue is reported. *)
Lemma getDueDate_never_throws_witness :
  (html_url Sample.emptyUrlIssue <> None /\
   root_issue Sample.emptyUrlIssue <> Some true) /\
  runDueDate Sample.emptyUrlIssue []
  = (Return {| eta := EmptyString |},
     TestDouble.addError
       (etaNotFound Sample.emptyUrlIssue) []).
Proof.
  assert (html_url Sample.emptyUrlIssue <> None /\
          root_issue Sample.emptyUrlIssue <> Some true) as H
    by (split; discriminate).
  split; [exact H|].
  destruct (getDueDate_never_throws
              TestDouble.parseHTML TestDouble.getEtaDate (list ErrorEntry)
              TestDouble.addError Sample.emptyUrlIssue [])
    as (_ & Hfail & _).
  destruct (Hfail (Error "No ETA found") eq_refl) as [Hadd _].
  exact (Hadd H).
Defined.

(** C3 as first stated fails: the [html_url] is empty and [getDueDate]
    reports the missing ETA all the same. *)
Lemma getDueDate_reports_with_empty_html_url :
  html_url Sample.emptyUrlIssue = Some EmptyString /\
  TestDouble.getEtaDate
    (issueTextOf TestDouble.parseHTML Sample.emptyUrlIssue)
  = Throw (Error "No ETA found") /\
  runDueDate Sample.emptyUrlIssue []
  = (Return {| eta := EmptyString |},
     [{| issue := Sample.emptyUrlIssue;
         userGuideSection := "#eta";
         errorTitle := "ETA not found";
         errorMessage := "ETA not found in issue body" |}]).
Proof. split; [|split]; reflexivity. Qed.

(** C4: rendered markup in the body trips the guard. *)
Lemma children_guard_falls_back_to_legacy_witness :
  getChildrenNew TestDouble.getValidUrlFromInput TestDouble.paramsFromUrl
    Sample.renderedBodyIssue []
  = (Throw GuardViolation, []) /\
  runChildren Sample.renderedBodyIssue []
  = (Return [children "https://github.com/protocol/bedrock/issues/5";
             children "https://example.org/tracker/11"], []).
Proof.
  apply (children_guard_falls_back_to_legacy
           TestDouble.parseHTML TestDouble.anchorHref
           TestDouble.getValidUrlFromInput TestDouble.paramsFromUrl
           TestDouble.isValidChildren Sample.renderedBodyIssue
           [] [] SectionMissingOrEmpty).
  - reflexivity.
  - vm_compute. discriminate.
  - exists "<ul>". split; [vm_compute; left; reflexivity | reflexivity].
Defined.

(** C5: "#121" is expanded, "protocol/bedrock#5" is not. *)
Lemma short_reference_expanded_before_validation_witness :
  runResolve "#121" Sample.tasklistIssue
  = validated TestDouble.getValidUrlFromInput "ipfs/ipfs-gui#121" /\
  runResolve "protocol/bedrock#5" Sample.tasklistIssue
  = validated TestDouble.getValidUrlFromInput "protocol/bedrock#5".
Proof.
  split.
  - apply (proj1 (short_reference_expanded_before_validation
                    TestDouble.getValidUrlFromInput TestDouble.paramsFromUrl
                    "#121" Sample.tasklistIssue)
             (proj1 (testHashDigits_iff "#121") eq_refl)
             {| owner := "ipfs"; repo := "ipfs-gui" |} eq_refl).
  - apply (proj2 (short_reference_expanded_before_validation
                    TestDouble.getValidUrlFromInput TestDouble.paramsFromUrl
                    "protocol/bedrock#5" Sample.tasklistIssue)
             (proj1 (testHashDigits_false_iff "protocol/bedrock#5") eq_refl)).
Defined.

(** C6: a section with a link, a parenthesis and blanks. *)
Lemma getSectionLines_locates_and_unwraps_witness :
  getSectionLines Sample.notesText "children:" = [] /\
  Forall2 Unwrapped
    ["[docs](https://example.org/a)."; "see b) and c"; "  #7  "]
    (getSectionLines Sample.notesText "notes:") /\
  getUrlFromMarkdownText "#7" = "#7".
Proof.
  split; [|split].
  - apply (proj1 (getSectionLines_locates_and_unwraps
                    Sample.notesText "children:")).
    apply indexOf_None. reflexivity.
  - apply (proj1 (proj2 (getSectionLines_locates_and_unwraps
                           Sample.notesText "notes:"))
             EmptyString
             (substringFrom 6 Sample.notesText)
             (splitLines Sample.notesText)).
    + apply (indexOf_FirstOccurrence "notes:" Sample.notesText 0). reflexivity.
    + apply splitLines_spec.
  - apply (proj2 (proj2 (getSectionLines_locates_and_unwraps
                           EmptyString EmptyString))).
    + apply NoOuterWhiteSpace_of_trim. reflexivity.
    + apply indexOf_None. reflexivity.
    + apply indexOf_None. reflexivity.
Defined.

(** C6 as first stated fails: the line "see b) and c" holds no "](", yet
    the unwrap changes it; of "[docs](https://example.org/a)." the code
    removes the parenthesis although it is not the last character; and
    "  #7  " loses its blanks. *)
Lemma unwrap_changes_lines_without_link :
  includes "](" "see b) and c" = false /\
  getUrlFromMarkdownText "see b) and c" = "see b and c" /\
  unwrapAsSpecified "see b) and c" = "see b) and c" /\
  getUrlFromMarkdownText "[docs](https://example.org/a)."
  = "https://example.org/a." /\
  unwrapAsSpecified "[docs](https://example.org/a)."
  = "https://example.org/a)." /\
  getSectionLines Sample.notesText "notes:"
  = ["https://example.org/a."; "see b and c"; "#7"] /\
  map unwrapAsSpecified (tl (splitLines Sample.notesText))
  = ["https://example.org/a)."; "see b) and c"; "  #7  "].
Proof. repeat (split; [vm_compute; reflexivity|]). vm_compute. reflexivity. Qed.

(** C7: the records of the rendered list, the second one outside
    github.com. *)
Lemma getChildren_legacy_records_witness :
  getChildrenNew TestDouble.getValidUrlFromInput TestDouble.paramsFromUrl
    Sample.legacyIssue []
  = (Throw SectionMissingOrEmpty, []) /\
  runChildren Sample.legacyIssue []
  = (Return [children "https://github.com/protocol/bedrock/issues/5";
             children "https://example.org/tracker/11"], []).
Proof.
  split; [reflexivity|].
  apply (proj2 (proj2 (proj2 (getChildren_legacy_records
                  TestDouble.parseHTML TestDouble.anchorHref
                  TestDouble.getValidUrlFromInput TestDouble.paramsFromUrl
                  TestDouble.isValidChildren Sample.legacyIssue)))
           [] [] SectionMissingOrEmpty eq_refl).
Defined.

(** C9: the first line fails, nothing is returned, although the second
    line resolves and the rendered markup holds two legacy children. *)
Lemma unresolvable_first_line_yields_no_children_witness :
  (exists st', runChildren Sample.undecidedIssue [] = (Return [], st')) /\
  runResolve "#5" Sample.undecidedIssue = Return "https://github.com/o/r/issues/5" /\
  List.length
    (getChildrenLegacy TestDouble.parseHTML TestDouble.anchorHref
       TestDouble.isValidChildren Sample.undecidedIssue) = 2.
Proof.
  split; [|split; reflexivity].
  apply (unresolvable_first_line_yields_no_children
           TestDouble.parseHTML TestDouble.anchorHref
           TestDouble.getValidUrlFromInput TestDouble.paramsFromUrl
           TestDouble.isValidChildren Sample.undecidedIssue [] "decided" ["#5"]).
  - apply resolve_fails_iff. eexists. reflexivity.
  - right. split; [|split]; reflexivity.
Defined.

(** C10: the ETA is found and nothing is reported. *)
Lemma getDueDate_success_keeps_collector_witness :
  runDueDate Sample.legacyIssue [] = (Return {| eta := "2023Q2" |}, []).
Proof.
  apply (getDueDate_success_keeps_collector
           TestDouble.parseHTML TestDouble.getEtaDate (list ErrorEntry)
           TestDouble.addError Sample.legacyIssue [] "2023Q2").
  reflexivity.
Defined.

(** *** The further properties at work *)

(** X3: a link with blanks around it. *)
Lemma getUrlFromMarkdownText_unwraps_link_witness :
  getUrlFromMarkdownText "  [issue 5](https://github.com/o/r/issues/5) "
  = "https://github.com/o/r/issues/5".
Proof.
  apply (getUrlFromMarkdownText_unwraps_link
           "  " "issue 5" "https://github.com/o/r/issues/5" " ").
  - reflexivity.
  - reflexivity.
  - apply indexOf_None. reflexivity.
  - apply indexOf_None. reflexivity.
Defined.

(** X4: a checkbox item whose reference is a link to "#5". *)
Lemma linked_task_item_is_dropped_witness :
  ensureTaskListChild "- [ ] [first](#5)" = true /\
  filter ensureTaskListChild (map getUrlFromMarkdownText ["- [ ] [first](#5)"])
  = [].
Proof.
  apply (linked_task_item_is_dropped "first" "#5").
  - apply indexOf_None. reflexivity.
  - apply indexOf_None. reflexivity.
  - reflexivity.
Defined.

(** X5: "#1" on the header's line is not a candidate, "- #2" is. *)
Lemma getSectionLines_skips_header_line_witness :
  getSectionLines Sample.headerLineText "children:"
  = map getUrlFromMarkdownText (splitLines "- #2") /\
  getSectionLines "children: #1" "children:" = [].
Proof.
  split.
  - apply (proj2 (getSectionLines_skips_header_line
                    Sample.headerLineText "children:" EmptyString
                    (" #1" ++ LF ++ "- #2")
                    (indexOf_FirstOccurrence "children:"
                       Sample.headerLineText 0 eq_refl))
             " #1" LF "- #2").
    + reflexivity.
    + reflexivity.
    + discriminate.
    + reflexivity.
    + reflexivity.
  - apply (proj1 (getSectionLines_skips_header_line
                    "children: #1" "children:" EmptyString " #1"
                    (indexOf_FirstOccurrence "children:" "children: #1" 0
                       eq_refl))).
    reflexivity.
Defined.

(** X7: the guard error of the rendered body. *)
Lemma getChildrenNew_throws_only_two_errors_witness :
  taskListLines Sample.renderedBodyIssue = [] /\
  ((childrenLines Sample.renderedBodyIssue = [] /\
    GuardViolation = SectionMissingOrEmpty) \/
   ((exists line, In line (childrenLines Sample.renderedBodyIssue) /\
                  startsWith "<" line = true) /\
    GuardViolation = GuardViolation)).
Proof.
  apply (getChildrenNew_throws_only_two_errors
           TestDouble.getValidUrlFromInput TestDouble.paramsFromUrl
           Sample.renderedBodyIssue [] [] GuardViolation eq_refl).
Defined.

(** X8: a body without headers. *)
Lemma getChildren_without_headers_is_legacy_witness :
  runChildren Sample.legacyIssue []
  = (Return (getChildrenLegacy TestDouble.parseHTML TestDouble.anchorHref
               TestDouble.isValidChildren Sample.legacyIssue), []).
Proof.
  apply (getChildren_without_headers_is_legacy
           TestDouble.parseHTML TestDouble.anchorHref
           TestDouble.getValidUrlFromInput TestDouble.paramsFromUrl
           TestDouble.isValidChildren Sample.legacyIssue []).
  - apply indexOf_None. reflexivity.
  - apply indexOf_None. reflexivity.
Defined.

(** X9: the four task-list lines of the unit test all resolve. *)
Lemma getChildren_one_record_per_resolving_line_witness :
  exists st',
    runChildren Sample.tasklistIssue []
    = (Return [tasklist "https://github.com/ipfs/ipfs-gui/issues/121";
               tasklist "https://github.com/ipfs/ipfs-gui/issues/122";
               tasklist "https://github.com/ipfs/ipfs-gui/issues/123";
               tasklist "https://github.com/ipfs/ipfs-gui/issues/124"], st').
Proof.
  destruct (getChildren_one_record_per_resolving_line
              TestDouble.parseHTML TestDouble.anchorHref
              TestDouble.getValidUrlFromInput TestDouble.paramsFromUrl
              TestDouble.isValidChildren Sample.tasklistIssue [] "tasklist"
              ["#121"; "#122"; "#123"; "#124"]
              ["https://github.com/ipfs/ipfs-gui/issues/121";
               "https://github.com/ipfs/ipfs-gui/issues/122";
               "https://github.com/ipfs/ipfs-gui/issues/123";
               "https://github.com/ipfs/ipfs-gui/issues/124"])
    as (st' & H & _).
  - left. split; reflexivity.
  - discriminate.
  - repeat constructor; apply resolve_iff; reflexivity.
  - exists st'. exact H.
Defined.

(** X12: no short reference among the lines, so any issue will do. *)
Lemma getValidChildrenLinks_reads_html_url_for_short_references_witness :
  getValidChildrenLinks TestDouble.getValidUrlFromInput TestDouble.paramsFromUrl
    ["https://github.com/o/r/issues/5"; "o/r#7"] Sample.tasklistIssue []
  = getValidChildrenLinks TestDouble.getValidUrlFromInput TestDouble.paramsFromUrl
      ["https://github.com/o/r/issues/5"; "o/r#7"] Sample.legacyIssue [].
Proof.
  apply (getValidChildrenLinks_reads_html_url_for_short_references
           TestDouble.getValidUrlFromInput TestDouble.paramsFromUrl).
  right. repeat constructor; apply testHashDigits_false_iff; reflexivity.
Defined.

(** X14: the record of the unit test with the markdown link. *)
Lemma getChildrenNew_records_are_resolved_lines_witness :
  exists lines,
    (lines = taskListLines Sample.markdownLinkIssue \/
     lines = childrenLines Sample.markdownLinkIssue) /\
    1 <= List.length lines /\
    Forall (fun r => exists line,
                In line lines /\
                ResolvesTo TestDouble.getValidUrlFromInput
                  TestDouble.paramsFromUrl line Sample.markdownLinkIssue
                  (Child.html_url r))
      [children "https://github.com/filecoin-project/rust-fil-proofs/issues/1644"].
Proof.
  apply (getChildrenNew_records_are_resolved_lines
           TestDouble.getValidUrlFromInput TestDouble.paramsFromUrl
           Sample.markdownLinkIssue []
           [["https://github.com/filecoin-project/rust-fil-proofs/issues/1644"]]
           [children "https://github.com/filecoin-project/rust-fil-proofs/issues/1644"]).
  reflexivity.
Defined.

(** X15: the legacy records carry a heading the classifier accepts. *)
Lemma getChildren_groups_are_uniform_witness :
  Forall (fun r => Child.group r = Some "tasklist")
    [children "https://github.com/protocol/bedrock/issues/5";
     children "https://example.org/tracker/11"] \/
  Forall (fun r => Child.group r = Some "children:")
    [children "https://github.com/protocol/bedrock/issues/5";
     children "https://example.org/tracker/11"] \/
  Forall (fun r => TestDouble.isValidChildren (Child.group r) = true)
    [children "https://github.com/protocol/bedrock/issues/5";
     children "https://example.org/tracker/11"].
Proof.
  apply (getChildren_groups_are_uniform
           TestDouble.parseHTML TestDouble.anchorHref
           TestDouble.getValidUrlFromInput TestDouble.paramsFromUrl
           TestDouble.isValidChildren Sample.legacyIssue [] []).
  reflexivity.
Defined.

(** X18: the anchor of the inner list appears under both headings. *)
Lemma nested_list_anchor_reported_for_each_list_witness :
  getChildrenLegacy Sample.parseNested TestDouble.anchorHref
    TestDouble.isValidChildren Sample.nestedIssue
  = [Child.mk (Some "children:") "https://github.com/o/r/issues/3";
     Child.mk (Some "children") "https://github.com/o/r/issues/3"] /\
  In (Child.mk (Some "children:") "https://github.com/o/r/issues/3")
    (getChildrenLegacy Sample.parseNested TestDouble.anchorHref
       TestDouble.isValidChildren Sample.nestedIssue) /\
  In (Child.mk (Some "children") "https://github.com/o/r/issues/3")
    (getChildrenLegacy Sample.parseNested TestDouble.anchorHref
       TestDouble.isValidChildren Sample.nestedIssue).
Proof.
  split; [reflexivity|].
  apply (nested_list_anchor_reported_for_each_list
           Sample.parseNested TestDouble.anchorHref TestDouble.isValidChildren
           Sample.nestedIssue
           {| element := Sample.nestedOuterList;
              previousElementSibling := Some Sample.nestedOuterHeading |}
           {| element := Sample.nestedInnerList;
              previousElementSibling := Some Sample.nestedInnerHeading |}
           {| element := Sample.nestedAnchor;
              previousElementSibling := None |}).
  - vm_compute. left. reflexivity.
  - vm_compute. right. left. reflexivity.
  - vm_compute. right. right. left. reflexivity.
  - vm_compute. left. reflexivity.
Defined.

(** The content hash on small inputs (Java gives the same values). *)
Example generateHashCode_values :
  generateHashCode "" = 0%Z /\
  generateHashCode "a" = 97%Z /\
  generateHashCode "hello" = 99162322%Z /\
  generateHashCode "The quick brown fox jumps over the lazy dog"
  = (-609428141)%Z.
Proof. repeat split. Qed.

Example hashString_values :
  hashString "simple" "/roadmap/github.com/o/r/issues/1#detail" = "detail" /\
  hashString "simple" "/roadmap/github.com/o/r/issues/1" = "simple" /\
  hashString "simple" "/roadmap/github.com/o/r/issues/1#" = "".
Proof. repeat split. Qed.
